(** * Clinical-trial cell-count analysis: embedding and verification

    A shallow embedding of [database.py] (schema and [load_csv]),
    [analysis.py] (frequency tables, significance tests, cohort queries)
    and the subject counts of [main.py], with the properties of the
    specification stated and proved over it.

    Conventions of the embedding.
    - A table of the SQLite store is the list of its rows in insertion
      order.  Primary keys are checked when a row is inserted; foreign
      keys are declared but SQLite does not enforce them unless asked,
      and the code does not ask.  Columns declared NOT NULL hold a value
      by type: a CSV line with an empty required field is outside the
      embedding.
    - A polars frame is the list of its rows, a column is a list.  Where
      polars leaves the row order open ([unique], [group_by], SQL
      results) the embedding fixes one; no property depends on it.
    - A 64-bit float is a value of [f64]: a rational for a finite number
      (arithmetic is exact, there is no binary rounding error), the two
      infinities and NaN.  Decimal rounding is round-half-to-even on the
      rational.
    - A Python exception is the [Raise] branch of [result].
    - polars, SQLAlchemy and scipy are libraries, not code of the
      repository; their functions are embedded as their documentation
      describes the calls that the repository makes. *)

From Stdlib Require Import List String Ascii Bool Arith ZArith QArith Qround Qminmax.
From Stdlib Require Import Lia Lqa Permutation Sorted DecimalString.
Import ListNotations.


(* ================================================================= *)
(** * Exceptions *)

Inductive exn : Type :=
| IntegrityError
| TypeError
| ValueError (msg : string).

Inductive result (A : Type) : Type :=
| Ok (a : A)
| Raise (e : exn).

Arguments Ok {A} a.
Arguments Raise {A} e.

Definition bind {A B : Type} (r : result A) (k : A -> result B) : result B :=
  match r with
  | Ok a => k a
  | Raise e => Raise e
  end.

Notation "x <- r ;; k" := (bind r (fun x => k))
  (at level 61, r at next level, right associativity).

(** A Python [for] loop that appends one computed element per item and
    stops at the first exception. *)
Fixpoint for_each {A B : Type} (body : A -> result B) (items : list A)
  : result (list B) :=
  match items with
  | [] => Ok []
  | a :: rest =>
      b <- body a ;;
      bs <- for_each body rest ;;
      Ok (b :: bs)
  end.

(* ================================================================= *)
(** * Floating-point values *)

Inductive f64 : Type :=
| Fin (q : Q)
| Inf (negative : bool)
| NaN.

Definition is_nan (x : f64) : bool :=
  match x with NaN => true | _ => false end.


(** IEEE comparison [x < y]: false as soon as one side is NaN. *)
Definition f64_ltb (x y : f64) : bool :=
  match x, y with
  | Fin a, Fin b => match Qcompare a b with Lt => true | _ => false end
  | Inf true, Fin _ => true
  | Fin _, Inf false => true
  | Inf true, Inf false => true
  | _, _ => false
  end.

(** IEEE comparison [x <= y]. *)
Definition f64_leb (x y : f64) : bool :=
  match x, y with
  | Fin a, Fin b => match Qcompare a b with Gt => false | _ => true end
  | Inf true, Fin _ => true
  | Fin _, Inf false => true
  | Inf a, Inf b => orb a (negb b)
  | _, _ => false
  end.

(** IEEE equality [x == y]. *)
Definition f64_eqb (x y : f64) : bool :=
  match x, y with
  | Fin a, Fin b => Qeq_bool a b
  | Inf a, Inf b => Bool.eqb a b
  | _, _ => false
  end.

(** True division of two integer columns ([Int64 / Int64] gives
    [Float64]): [0/0] is NaN, [n/0] is an infinity of the sign of [n]. *)
Definition int_truediv (a b : Z) : f64 :=
  if (b =? 0)%Z then
    if (a =? 0)%Z then NaN else Inf (a <? 0)%Z
  else Fin (inject_Z a / inject_Z b).

(** Multiplication by a positive finite constant. *)
Definition f64_scale (x : f64) (c : Q) : f64 :=
  match x with
  | Fin q => Fin (q * c)
  | other => other
  end.

(** Nearest integer, ties to even. *)
Definition round_half_even (q : Q) : Z :=
  let n := Qfloor q in
  match Qcompare (q - inject_Z n) (1 # 2) with
  | Lt => n
  | Gt => (n + 1)%Z
  | Eq => if Z.even n then n else (n + 1)%Z
  end.

Definition pow10 (d : nat) : Z := (10 ^ Z.of_nat d)%Z.

(** Rounding of a rational to [d] decimals, in lowest terms. *)
Definition round_to (d : nat) (q : Q) : Q :=
  Qred (inject_Z (round_half_even (q * inject_Z (pow10 d))) / inject_Z (pow10 d)).

(** [Expr.round(d)] of polars and [round(x, d)] of Python on a float:
    infinities and NaN are returned unchanged. *)
Definition f64_round (d : nat) (x : f64) : f64 :=
  match x with
  | Fin q => Fin (round_to d q)
  | other => other
  end.

Definition pl_round : nat -> f64 -> f64 := f64_round.
Definition py_round : nat -> f64 -> f64 := f64_round.

(** [numpy.clip(x, 0, 1)]. *)
Definition clip01 (x : f64) : f64 :=
  match x with
  | Fin q => Fin (Qmin (Qmax q 0) 1)
  | Inf true => Fin 0
  | Inf false => Fin 1
  | NaN => NaN
  end.

(* ================================================================= *)
(** * Strings, nullable strings and sorting *)

(** [col == "lit"] on a nullable string column: a null compares to null,
    which a filter treats as false. *)
Definition opt_is (o : option string) (lit : string) : bool :=
  match o with
  | Some s => String.eqb s lit
  | None => false
  end.

Definition opt_string_dec (a b : option string) : {a = b} + {a <> b}.
Proof. decide equality. apply string_dec. Defined.

(** Ascending order of a nullable string column, nulls first. *)
Definition opt_leb (a b : option string) : bool :=
  match a, b with
  | None, _ => true
  | Some _, None => false
  | Some x, Some y => String.leb x y
  end.

(** Insertion into a list sorted by [leb]; equal keys keep their order. *)
Fixpoint insert_sorted {A : Type} (leb : A -> A -> bool) (x : A) (l : list A)
  : list A :=
  match l with
  | [] => [x]
  | y :: rest =>
      if leb x y then x :: l else y :: insert_sorted leb x rest
  end.

(** [sort] of a frame or a column by the order [leb]. *)
Definition sort_by {A : Type} (leb : A -> A -> bool) (l : list A) : list A :=
  fold_right (insert_sorted leb) [] l.

(** Lexicographic order on a pair of string keys. *)
Definition key_leb (k1 k2 : string * string) : bool :=
  match String.compare (fst k1) (fst k2) with
  | Lt => true
  | Eq => String.leb (snd k1) (snd k2)
  | Gt => false
  end.

Definition sum_Z (l : list Z) : Z := fold_right Z.add 0%Z l.

(* ================================================================= *)
(** * The store ([database.py]) *)

Module Project.
Record t : Type := { id : string }.
End Project.

Module Subject.
Record t : Type := {
    id : string;
    project_id : string;
    condition : string;
    age : Z;
    sex : string;
    treatment : option string;
    response : option string
  }.
End Subject.

Module Sample.
Record t : Type := {
    id : string;
    subject_id : string;
    sample_type : string;
    time_from_treatment_start : Z
  }.
End Sample.

Module CellCount.
Record t : Type := {
    id : Z;
    sample_id : string;
    population : string;
    count : Z
  }.
End CellCount.

Definition CELL_POPULATIONS : list string :=
  ["b_cell"; "cd8_t_cell"; "cd4_t_cell"; "nk_cell"; "monocyte"]%string.

(** The four tables of the database file. *)
Record Store : Type := {
  projects : list Project.t;
  subjects : list Subject.t;
  samples : list Sample.t;
  cell_counts : list CellCount.t
}.

(** [init_db] on a fresh path: the schema with no rows. *)
Definition init_db : Store :=
  {| projects := []; subjects := []; samples := []; cell_counts := [] |}.

(** One line of the CSV source. *)
Module CsvRow.
Record t : Type := {
    project : string;
    subject : string;
    condition : string;
    age : Z;
    sex : string;
    treatment : option string;
    response : option string;
    sample : string;
    sample_type : string;
    time_from_treatment_start : Z;
    b_cell : Z;
    cd8_t_cell : Z;
    cd4_t_cell : Z;
    nk_cell : Z;
    monocyte : Z
  }.

  (** The value of the population column called [name]. *)
Definition column (name : string) (r : t) : Z :=
    if String.eqb name "b_cell" then b_cell r
    else if String.eqb name "cd8_t_cell" then cd8_t_cell r
    else if String.eqb name "cd4_t_cell" then cd4_t_cell r
    else if String.eqb name "nk_cell" then nk_cell r
    else if String.eqb name "monocyte" then monocyte r
    else 0%Z.
End CsvRow.

(** ** Row selections with [unique()] *)

Definition subject_cols : Type :=
  (string * string * string * Z * string * option string * option string)%type.

Definition sample_cols : Type := (string * string * string * Z)%type.

Definition subject_cols_dec (a b : subject_cols) : {a = b} + {a <> b}.
Proof.
  repeat decide equality; try apply string_dec; try apply Z.eq_dec.
Defined.

Definition sample_cols_dec (a b : sample_cols) : {a = b} + {a <> b}.
Proof.
  repeat decide equality; try apply string_dec; try apply Z.eq_dec.
Defined.

(** [DataFrame.unique()]: one copy of every distinct row. *)
Definition unique {A : Type} (dec : forall a b : A, {a = b} + {a <> b})
  (rows : list A) : list A := nodup dec rows.

Definition select_subject (r : CsvRow.t) : subject_cols :=
  (CsvRow.subject r, CsvRow.project r, CsvRow.condition r, CsvRow.age r,
   CsvRow.sex r, CsvRow.treatment r, CsvRow.response r).

Definition select_sample (r : CsvRow.t) : sample_cols :=
  (CsvRow.sample r, CsvRow.subject r, CsvRow.sample_type r,
   CsvRow.time_from_treatment_start r).

Definition mk_subject (c : subject_cols) : Subject.t :=
  let '(sid, pid, cond, a, sx, tr, rs) := c in
  {| Subject.id := sid; Subject.project_id := pid; Subject.condition := cond;
     Subject.age := a; Subject.sex := sx; Subject.treatment := tr;
     Subject.response := rs |}.

Definition mk_sample (c : sample_cols) : Sample.t :=
  let '(sid, subj, ty, tm) := c in
  {| Sample.id := sid; Sample.subject_id := subj; Sample.sample_type := ty;
     Sample.time_from_treatment_start := tm |}.

(** [unpivot]: the rows of the first population column, then those of the
    second, and so on; each as (sample, population, count). *)
Definition unpivot (df : list CsvRow.t) : list (string * string * Z) :=
  flat_map
    (fun pop => map (fun r => (CsvRow.sample r, pop, CsvRow.column pop r)) df)
    CELL_POPULATIONS.

(** ** The session: pending objects and their flush *)

Record Session : Type := {
  new_projects : list Project.t;
  new_subjects : list Subject.t;
  new_samples : list Sample.t;
  new_cell_counts : list (string * string * Z)
}.

(** INSERT into a table whose primary key is [key]. *)
Definition insert_pk {A : Type} (key : A -> string) (tbl : list A) (row : A)
  : result (list A) :=
  if existsb (fun old => String.eqb (key old) (key row)) tbl
  then Raise IntegrityError
  else Ok (tbl ++ [row]).

Fixpoint insert_all {A : Type} (key : A -> string) (tbl : list A)
  (rows : list A) : result (list A) :=
  match rows with
  | [] => Ok tbl
  | r :: rest =>
      tbl' <- insert_pk key tbl r ;;
      insert_all key tbl' rest
  end.

(** INSERT into [cell_counts]: the key is the next row number. *)
Definition insert_cell_count (tbl : list CellCount.t) (row : string * string * Z)
  : list CellCount.t :=
  let '(sid, pop, n) := row in
  tbl ++ [ {| CellCount.id := Z.of_nat (List.length tbl) + 1;
              CellCount.sample_id := sid;
              CellCount.population := pop;
              CellCount.count := n |} ].

(** The INSERTs of a flush, parents before children. *)
Definition flush (st : Store) (s : Session) : result Store :=
  ps <- insert_all Project.id (projects st) (new_projects s) ;;
  sbs <- insert_all Subject.id (subjects st) (new_subjects s) ;;
  sms <- insert_all Sample.id (samples st) (new_samples s) ;;
  Ok {| projects := ps; subjects := sbs; samples := sms;
        cell_counts := fold_left insert_cell_count (new_cell_counts s)
                         (cell_counts st) |}.

(** [session.commit()] inside [with Session(engine)]: one transaction; a
    failed flush is rolled back and the exception propagates.  The pair
    is the exception, if any, and the store afterwards. *)
Definition commit (st : Store) (s : Session) : option exn * Store :=
  match flush st s with
  | Ok st' => (None, st')
  | Raise e => (Some e, st)
  end.

(** The objects that [load_csv] adds to the session, in the order of
    the [session.add] calls. *)
Definition pending (df : list CsvRow.t) : Session :=
  let projects := unique string_dec (map CsvRow.project df) in
  let subjects := unique subject_cols_dec (map select_subject df) in
  let samples := unique sample_cols_dec (map select_sample df) in
  let cell_counts := unpivot df in
  {| new_projects := map (fun p => {| Project.id := p |}) projects;
     new_subjects := map mk_subject subjects;
     new_samples := map mk_sample samples;
     new_cell_counts := cell_counts |}.

Definition load_csv (engine : Store) (df : list CsvRow.t) : option exn * Store :=
  commit engine (pending df).

(** ** Invariants of the data model *)

(** Primary keys: no id twice in [projects], [subjects] or [samples]. *)
Definition pk_unique (st : Store) : Prop :=
  NoDup (map Project.id (projects st)) /\
  NoDup (map Subject.id (subjects st)) /\
  NoDup (map Sample.id (samples st)).

(** Foreign keys: every reference names an existing parent row. *)
Definition ref_integrity (st : Store) : Prop :=
  (forall sub, In sub (subjects st) ->
     In (Subject.project_id sub) (map Project.id (projects st))) /\
  (forall s, In s (samples st) ->
     In (Sample.subject_id s) (map Subject.id (subjects st))) /\
  (forall cc, In cc (cell_counts st) ->
     In (CellCount.sample_id cc) (map Sample.id (samples st))).

Definition wf_store (st : Store) : Prop := pk_unique st /\ ref_integrity st.

(** At most one [cell_counts] row per (sample, population). *)
Definition cell_count_unique (st : Store) : Prop :=
  NoDup (map (fun cc => (CellCount.sample_id cc, CellCount.population cc))
             (cell_counts st)).

(* ================================================================= *)
(** * Frequency tables ([analysis.py]) *)

(** A row of the three-table join
    [cell_counts JOIN samples JOIN subjects]. *)
Module Joined.
Record t : Type := {
  sample_id : string;
  population : string;
  count : Z;
  project_id : string;
  condition : string;
  treatment : option string;
  sample_type : string;
  response : option string;
  sex : string;
  time_from_treatment_start : Z
}.
End Joined.

(** [FROM cell_counts cc JOIN samples s ON cc.sample_id = s.id
     JOIN subjects sub ON s.subject_id = sub.id]: one row for every
    matching triple. *)
Definition joined_row (cc : CellCount.t) (s : Sample.t) (sub : Subject.t)
  : Joined.t :=
  {| Joined.sample_id := CellCount.sample_id cc;
     Joined.population := CellCount.population cc;
     Joined.count := CellCount.count cc;
     Joined.project_id := Subject.project_id sub;
     Joined.condition := Subject.condition sub;
     Joined.treatment := Subject.treatment sub;
     Joined.sample_type := Sample.sample_type s;
     Joined.response := Subject.response sub;
     Joined.sex := Subject.sex sub;
     Joined.time_from_treatment_start := Sample.time_from_treatment_start s |}.

Definition join_counts (st : Store) : list Joined.t :=
  flat_map (fun cc =>
    flat_map (fun s =>
      map (joined_row cc s)
        (filter (fun sub => String.eqb (Sample.subject_id s) (Subject.id sub))
                (subjects st)))
      (filter (fun s => String.eqb (CellCount.sample_id cc) (Sample.id s))
              (samples st)))
    (cell_counts st).

(** [df.group_by("sample_id").agg(pl.col("count").sum())]: one row per
    distinct sample id, with the sum of the counts of its rows. *)
Definition group_totals (df : list Joined.t) : list (string * Z) :=
  map (fun k =>
         (k, sum_Z (map Joined.count
                      (filter (fun r => String.eqb (Joined.sample_id r) k) df))))
      (unique string_dec (map Joined.sample_id df)).

(** [df.join(totals, on="sample_id")]: inner join, left order. *)
Definition join_totals (df : list Joined.t) (totals : list (string * Z))
  : list (Joined.t * Z) :=
  flat_map (fun r =>
    map (fun t => (r, snd t))
        (filter (fun t => String.eqb (Joined.sample_id r) (fst t)) totals))
    df.

(** [(count / total_count * 100).round(2)]. *)
Definition percentage_of (count total_count : Z) : f64 :=
  pl_round 2 (f64_scale (int_truediv count total_count) 100).

Module Freq.
Record t : Type := {
  sample : string;
  project_id : string;
  condition : string;
  treatment : option string;
  sample_type : string;
  total_count : Z;
  population : string;
  count : Z;
  percentage : f64
}.
End Freq.

Definition freq_key (r : Freq.t) : string * string :=
  (Freq.sample r, Freq.population r).

(** The [with_columns] and [select] steps on one joined row. *)
Definition select_frequency (rt : Joined.t * Z) : Freq.t :=
  let '(r, total) := rt in
  {| Freq.sample := Joined.sample_id r;
     Freq.project_id := Joined.project_id r;
     Freq.condition := Joined.condition r;
     Freq.treatment := Joined.treatment r;
     Freq.sample_type := Joined.sample_type r;
     Freq.total_count := total;
     Freq.population := Joined.population r;
     Freq.count := Joined.count r;
     Freq.percentage := percentage_of (Joined.count r) total |}.

Definition get_frequency_table (st : Store) : list Freq.t :=
  let df := join_counts st in
  let total_counts := group_totals df in
  sort_by (fun a b => key_leb (freq_key a) (freq_key b))
    (map select_frequency (join_totals df total_counts)).

Module Resp.
Record t : Type := {
  sample_id : string;
  population : string;
  percentage : f64;
  response : option string
}.
End Resp.

Definition resp_key (r : Resp.t) : string * string :=
  (Resp.sample_id r, Resp.population r).

(** The WHERE clause of [get_responder_frequencies]. *)
Definition responder_cohort (r : Joined.t) : bool :=
  String.eqb (Joined.condition r) "melanoma"
  && String.eqb (Joined.sample_type r) "PBMC"
  && opt_is (Joined.treatment r) "miraclib".

(** The frame of [get_responder_frequencies] before [select]: the
    queried rows with their sample total. *)
Definition responder_frame (st : Store) : list (Joined.t * Z) :=
  let df := filter responder_cohort (join_counts st) in
  join_totals df (group_totals df).

(** The [with_columns] and [select] steps on one queried row. *)
Definition select_responder (rt : Joined.t * Z) : Resp.t :=
  let '(r, total) := rt in
  {| Resp.sample_id := Joined.sample_id r;
     Resp.population := Joined.population r;
     Resp.percentage := percentage_of (Joined.count r) total;
     Resp.response := Joined.response r |}.

Definition get_responder_frequencies (st : Store) : list Resp.t :=
  sort_by (fun a b => key_leb (resp_key a) (resp_key b))
    (map select_responder (responder_frame st)).

(* ================================================================= *)
(** * The Mann-Whitney U test ([scipy.stats.mannwhitneyu]) *)

(** The test is a library function.  The embedding follows its
    documented algorithm: NaN observations propagate to the result; the
    statistic is the rank sum of the first sample (average ranks for
    ties) minus [n1 (n1 + 1) / 2]; the p-value is twice the upper tail at
    the larger of the two statistics, clipped to [0, 1]; the tail comes
    from the exact null distribution when a sample has at most eight
    observations and there are no ties, and from the normal approximation
    with tie and continuity correction otherwise. *)

(** What the library does with an empty sample depends on its release:
    older ones raise [ValueError], newer ones warn and return NaN. *)
Inductive empty_policy : Type :=
| EmptyRaises
| EmptyNaN.

Definition empty_sample_message : string :=
  "`x` and `y` must be of nonzero size.".

Definition count_lt (v : f64) (l : list f64) : nat :=
  List.length (filter (fun w => f64_ltb w v) l).

Definition count_eq (v : f64) (l : list f64) : nat :=
  List.length (filter (fun w => f64_eqb w v) l).

Definition Q_of_nat (n : nat) : Q := inject_Z (Z.of_nat n).

(** [rankdata(xy, 'average')] at the value [v]: the mean of the
    positions that the copies of [v] take in the sorted data. *)
Definition rank_average (xy : list f64) (v : f64) : Q :=
  Q_of_nat (count_lt v xy) + (Q_of_nat (count_eq v xy) + 1) / 2.

Definition sum_Q (l : list Q) : Q := fold_right Qplus 0 l.

(** The distinct values of the data, first occurrences. *)
Fixpoint distinct_values (l : list f64) : list f64 :=
  match l with
  | [] => []
  | v :: rest => v :: filter (fun w => negb (f64_eqb w v)) (distinct_values rest)
  end.

(** The tie counts [t]: the number of copies of each distinct value. *)
Definition tie_counts (xy : list f64) : list nat :=
  map (fun v => count_eq v xy) (distinct_values xy).

Definition has_ties (xy : list f64) : bool :=
  existsb (fun t => 1 <? t) (tie_counts xy).

(** Some observation of either sample is NaN. *)
Definition has_nan (x y : list f64) : bool :=
  existsb is_nan x || existsb is_nan y.

Inductive mwu_method : Type :=
| Exact
| Asymptotic.

(** [_mwu_choose_method]. *)
Definition mwu_choose_method (n1 n2 : nat) (ties : bool) : mwu_method :=
  if (8 <? n1) && (8 <? n2) then Asymptotic
  else if ties then Asymptotic
  else Exact.

(** The number of orderings of [m] values of the first sample and [n] of
    the second whose statistic is [u]. *)
Fixpoint mwu_count (m : nat) : nat -> Z -> Z :=
  match m with
  | O => fun _ u => if (u =? 0)%Z then 1%Z else 0%Z
  | S m' =>
      fix on_second (n : nat) (u : Z) {struct n} : Z :=
        match n with
        | O => if (u =? 0)%Z then 1%Z else 0%Z
        | S n' =>
            if (u <? 0)%Z then 0%Z
            else (mwu_count m' n (u - Z.of_nat n) + on_second n' u)%Z
        end
  end.

Fixpoint binom (n k : nat) : Z :=
  match n, k with
  | _, O => 1%Z
  | O, S _ => 0%Z
  | S n', S k' => (binom n' k' + binom n' k)%Z
  end.

Definition mwu_pmf (k : Z) (m n : nat) : Q :=
  inject_Z (mwu_count m n k) / inject_Z (binom (m + n) m).

Definition mwu_cdf (k : Z) (m n : nat) : Q :=
  inject_Z (sum_Z (map (fun j => mwu_count m n (Z.of_nat j))
                       (seq 0 (Z.to_nat (k + 1)))))
  / inject_Z (binom (m + n) m).

(** The survival function of the exact null distribution, the mass at
    [k] included; the symmetry of the distribution lets it sum from the
    left. *)
Definition mwu_sf (k : Z) (m n : nat) : Q :=
  let kc := (Z.of_nat (m * n) - k)%Z in
  if (k <? kc)%Z then 1 - mwu_cdf k m n + mwu_pmf k m n
  else mwu_cdf kc m n.

Section Statistics.

(** The release-dependent treatment of an empty sample. *)
Variable on_empty : empty_policy.

(** [norm.sf(numerator / sqrt(variance))], the upper tail of the standard
    normal distribution at the standardised statistic: a transcendental
    function, left abstract. *)
Variable norm_sf_ratio : Q -> Q -> f64.

(** [_get_mwu_z] followed by [norm.sf]. *)
Definition asymptotic_p (U : Q) (n1 n2 : nat) (t : list nat) : f64 :=
  let mu := Q_of_nat (n1 * n2) / 2 in
  let n := Q_of_nat (n1 + n2) in
  let tie_term :=
    Q_of_nat (fold_right Nat.add 0%nat (map (fun c => c * c * c - c)%nat t)) in
  let variance :=
    Q_of_nat (n1 * n2) / 12 * ((n + 1) - tie_term / (n * (n - 1))) in
  norm_sf_ratio (U - mu - (1 # 2)) variance.

(** [mannwhitneyu(x, y, alternative="two-sided")] with the default
    [method="auto"] and [nan_policy="propagate"]; the result is the
    statistic of the first sample and the p-value. *)
Definition mannwhitneyu (x y : list f64) : result (f64 * f64) :=
  if has_nan x y then Ok (NaN, NaN)
  else if (List.length x =? 0)%nat || (List.length y =? 0)%nat then
    match on_empty with
    | EmptyRaises => Raise (ValueError empty_sample_message)
    | EmptyNaN => Ok (NaN, NaN)
    end
  else
    let n1 := List.length x in
    let n2 := List.length y in
    let xy := x ++ y in
    let R1 := sum_Q (map (rank_average xy) x) in
    let U1 := R1 - Q_of_nat (n1 * (n1 + 1)) / 2 in
    let U2 := Q_of_nat (n1 * n2) - U1 in
    let U := Qmax U1 U2 in
    let p :=
      match mwu_choose_method n1 n2 (has_ties xy) with
      | Exact => Fin (mwu_sf (Qfloor U) (Nat.min n1 n2) (Nat.max n1 n2))
      | Asymptotic => asymptotic_p U n1 n2 (tie_counts xy)
      end in
    Ok (Fin U1, clip01 (f64_scale p 2)).

(* ================================================================= *)
(** * Significance tests ([analysis.py]) *)

Record SigRow : Type := {
  sig_population : string;
  u_statistic : f64;
  p_value : f64;
  significant : bool
}.

Definition alpha : f64 := Fin (5 # 100).

(** The percentages of the rows of population [pop] whose response is
    the literal [label]. *)
Definition response_group (label : string) (df : list Resp.t) (pop : string)
  : list f64 :=
  let pop_df := filter (fun r => String.eqb (Resp.population r) pop) df in
  map Resp.percentage (filter (fun r => opt_is (Resp.response r) label) pop_df).

Definition responders : list Resp.t -> string -> list f64 :=
  response_group "yes".

Definition non_responders : list Resp.t -> string -> list f64 :=
  response_group "no".

(** The body of the loop of [get_significance_tests]. *)
Definition test_population (df : list Resp.t) (pop : string) : result SigRow :=
  sp <- mannwhitneyu (responders df pop) (non_responders df pop) ;;
  let '(stat, p) := sp in
  Ok {| sig_population := pop;
        u_statistic := py_round 2 stat;
        p_value := py_round 4 p;
        significant := f64_ltb p alpha |}.

(** [df["population"].unique().sort().to_list()]. *)
Definition sorted_populations (df : list Resp.t) : list string :=
  sort_by String.leb (unique string_dec (map Resp.population df)).

(** The rows collected by the loop of [get_significance_tests], in
    order.  The last line of the source wraps them in a frame and casts
    [significant] to Boolean; that conversion is not part of the
    embedding. *)
Definition get_significance_tests (df : list Resp.t) : result (list SigRow) :=
  for_each (test_population df) (sorted_populations df).

End Statistics.

(* ================================================================= *)
(** * Cohort summaries ([analysis.py], [main.py]) *)

Module Baseline.
Record t : Type := {
  sample_id : string;
  project_id : string;
  subject_id : string;
  response : option string;
  sex : string
}.
End Baseline.

(** [FROM samples s JOIN subjects sub ON s.subject_id = sub.id WHERE ...]. *)
Definition get_baseline_samples (st : Store) : list Baseline.t :=
  flat_map (fun s =>
    map (fun sub =>
           {| Baseline.sample_id := Sample.id s;
              Baseline.project_id := Subject.project_id sub;
              Baseline.subject_id := Subject.id sub;
              Baseline.response := Subject.response sub;
              Baseline.sex := Subject.sex sub |})
        (filter (fun sub =>
                   String.eqb (Sample.subject_id s) (Subject.id sub)
                   && String.eqb (Subject.condition sub) "melanoma"
                   && String.eqb (Sample.sample_type s) "PBMC"
                   && (Sample.time_from_treatment_start s =? 0)%Z
                   && opt_is (Subject.treatment sub) "miraclib")
                (subjects st)))
    (samples st).

Definition subject_row : Type := (string * option string * string)%type.

Definition subject_row_dec (a b : subject_row) : {a = b} + {a <> b}.
Proof. repeat decide equality; apply string_dec. Defined.

Definition select_subject_row (b : Baseline.t) : subject_row :=
  (Baseline.subject_id b, Baseline.response b, Baseline.sex b).

(** [baseline.select("subject_id", "response", "sex").unique()]. *)
Definition distinct_subjects (baseline : list Baseline.t) : list subject_row :=
  unique subject_row_dec (map select_subject_row baseline).

(** The rows of the group of key [k]. *)
Definition has_key {K : Type} (dec : forall a b : K, {a = b} + {a <> b})
  (key : subject_row -> K) (k : K) (r : subject_row) : bool :=
  if dec (key r) k then true else false.

(** [group_by(key).agg(pl.col("subject_id").count()).sort(key)]: one row
    per distinct key with the number of rows that carry it. *)
Definition count_by {K : Type} (dec : forall a b : K, {a = b} + {a <> b})
  (leb : K -> K -> bool) (key : subject_row -> K) (rows : list subject_row)
  : list (K * nat) :=
  sort_by (fun a b => leb (fst a) (fst b))
    (map (fun k => (k, List.length (filter (has_key dec key k) rows)))
         (unique dec (map key rows))).

Definition row_response (r : subject_row) : option string := snd (fst r).
Definition row_sex (r : subject_row) : string := snd r.
Definition row_subject (r : subject_row) : string := fst (fst r).

Definition response_counts (subjects : list subject_row)
  : list (option string * nat) :=
  count_by opt_string_dec opt_leb row_response subjects.

Definition sex_counts (subjects : list subject_row) : list (string * nat) :=
  count_by string_dec String.leb row_sex subjects.

(** [dict(zip(keys, values)).get(k, default)]: the last pair with key
    [k] wins. *)
Definition dict_get {K : Type} (dec : forall a b : K, {a = b} + {a <> b})
  (d : list (K * nat)) (k : K) (default : nat) : nat :=
  match find (fun kv => if dec (fst kv) k then true else false) (rev d) with
  | Some kv => snd kv
  | None => default
  end.

(** The four subject metrics of the third tab, in display order:
    responders, non-responders, male, female. *)
Definition subject_metrics (st : Store) : nat * nat * nat * nat :=
  let baseline := get_baseline_samples st in
  let subjects := distinct_subjects baseline in
  let resp_map := response_counts subjects in
  let sex_map := sex_counts subjects in
  (dict_get opt_string_dec resp_map (Some "yes"%string) 0,
   dict_get opt_string_dec resp_map (Some "no"%string) 0,
   dict_get string_dec sex_map "M"%string 0,
   dict_get string_dec sex_map "F"%string 0).

(** The WHERE clause of [get_avg_bcell_male_responders]. *)
Definition bcell_male_responder (r : Joined.t) : bool :=
  String.eqb (Joined.condition r) "melanoma"
  && String.eqb (Joined.sex r) "M"
  && opt_is (Joined.response r) "yes"
  && (Joined.time_from_treatment_start r =? 0)%Z
  && String.eqb (Joined.population r) "b_cell".

(** [Series.mean()]: null on an empty column. *)
Definition mean (col : list Z) : option f64 :=
  match col with
  | [] => None
  | _ => Some (Fin (inject_Z (sum_Z col) / Q_of_nat (List.length col)))
  end.

(** [round(x, 2)] of Python where [x] may be [None]. *)
Definition round_optional (d : nat) (x : option f64) : result f64 :=
  match x with
  | Some v => Ok (py_round d v)
  | None => Raise TypeError
  end.

Definition get_avg_bcell_male_responders (st : Store) : result f64 :=
  let df := filter bcell_male_responder (join_counts st) in
  round_optional 2 (mean (map Joined.count df)).

(* ================================================================= *)
(** * Start-up and the dashboard tabs ([main.py]) *)

(** The database file at [DB_PATH]: absent, or holding a store. *)
Definition db_file : Type := option Store.

(** The module initialisation: when the file does not exist, [init_db]
    creates it and [load_csv] fills it; an exception of the load leaves
    the created file behind.  The pair is the exception, if any, and the
    file afterwards. *)
Definition startup (file : db_file) (csv : list CsvRow.t) : option exn * db_file :=
  match file with
  | Some st => (None, Some st)
  | None =>
      let engine := init_db in
      let '(e, st) := load_csv engine csv in
      (e, Some st)
  end.

Definition is_null (x : option string) : bool :=
  match x with None => true | Some _ => false end.

(** [sorted(xs)] of Python on the values of a nullable string column:
    strings are ordered among themselves, any comparison with [None]
    raises [TypeError], and a list of fewer than two items is returned
    without a comparison. *)
Definition py_sorted (xs : list (option string)) : result (list (option string)) :=
  if existsb is_null xs && (2 <=? List.length xs)%nat then Raise TypeError
  else Ok (sort_by opt_leb xs).

(** The choices of the four select boxes. *)
Record FilterOptions : Type := {
  project_options : list string;
  condition_options : list string;
  treatment_options : list (option string);
  sample_type_options : list string
}.

(** [["All"] + sorted(column.unique().to_list())] on a string column
    without nulls. *)
Definition choices (col : list string) : list string :=
  "All"%string :: sort_by String.leb (unique string_dec col).

Definition filter_options (freq_df : list Freq.t) : result FilterOptions :=
  let projects := choices (map Freq.project_id freq_df) in
  let conditions := choices (map Freq.condition freq_df) in
  sorted_treatments <-
    py_sorted (unique opt_string_dec (map Freq.treatment freq_df)) ;;
  let treatments := Some "All"%string :: sorted_treatments in
  let sample_types := choices (map Freq.sample_type freq_df) in
  Ok {| project_options := projects;
        condition_options := conditions;
        treatment_options := treatments;
        sample_type_options := sample_types |}.

(** The values chosen in the four select boxes. *)
Record Selection : Type := {
  sel_project : string;
  sel_condition : string;
  sel_treatment : option string;
  sel_sample_type : string
}.

(** [if sel != "All": filtered = filtered.filter(pl.col(c) == sel)]. *)
Definition filter_unless_all (sel : string) (col : Freq.t -> string)
  (rows : list Freq.t) : list Freq.t :=
  if String.eqb sel "All" then rows
  else filter (fun r => String.eqb (col r) sel) rows.

(** The same on the nullable treatment column; a comparison with a null
    on either side is null and keeps no row. *)
Definition filter_treatment (sel : option string) (rows : list Freq.t)
  : list Freq.t :=
  if opt_is sel "All" then rows
  else filter (fun r => match sel with
                        | Some s => opt_is (Freq.treatment r) s
                        | None => false
                        end) rows.

Definition apply_filters (sel : Selection) (freq_df : list Freq.t) : list Freq.t :=
  let filtered := filter_unless_all (sel_project sel) Freq.project_id freq_df in
  let filtered := filter_unless_all (sel_condition sel) Freq.condition filtered in
  let filtered := filter_treatment (sel_treatment sel) filtered in
  filter_unless_all (sel_sample_type sel) Freq.sample_type filtered.

(** The metrics "Samples" and "Records". *)
Definition samples_metric (filtered : list Freq.t) : nat :=
  List.length (unique string_dec (map Freq.sample filtered)).

Definition records_metric (filtered : list Freq.t) : nat := List.length filtered.

(** The choices of the population multiselect, all selected by default. *)
Definition all_pops (filtered : list Freq.t) : list string :=
  sort_by String.leb (unique string_dec (map Freq.population filtered)).

Module Display.
Record t : Type := {
  sample : string;
  total_count : Z;
  population : string;
  count : Z;
  percentage : f64
}.
End Display.

Definition select_display (r : Freq.t) : Display.t :=
  {| Display.sample := Freq.sample r;
     Display.total_count := Freq.total_count r;
     Display.population := Freq.population r;
     Display.count := Freq.count r;
     Display.percentage := Freq.percentage r |}.

Definition display_key (d : Display.t) : string * string :=
  (Display.sample d, Display.population d).

Section DataOverview.

(** [str.contains(pattern)] of polars, a regular-expression search, for
    a pattern that compiles; left abstract. *)
Variable str_contains : string -> string -> bool.

(** The table shown in the first tab: the selected columns, the rows
    whose sample matches the search text when there is one, and the rows
    of the selected populations when some are selected. *)
Definition display_df (filtered : list Freq.t) (sample_search : string)
  (sel_pops : list string) : list Display.t :=
  let display := map select_display filtered in
  let display :=
    if String.eqb sample_search "" then display
    else filter (fun d => str_contains sample_search (Display.sample d)) display in
  match sel_pops with
  | [] => display
  | _ :: _ =>
      filter (fun d => existsb (String.eqb (Display.population d)) sel_pops)
             display
  end.

End DataOverview.

(** [baseline.group_by("project_id").agg(pl.col("sample_id").count())
     .sort("project_id")]: per project, the number of cohort rows. *)
Definition project_counts (baseline : list Baseline.t) : list (string * nat) :=
  sort_by (fun a b => String.leb (fst a) (fst b))
    (map (fun k =>
            (k, List.length
                  (filter (fun b => String.eqb (Baseline.project_id b) k)
                          baseline)))
         (unique string_dec (map Baseline.project_id baseline))).

(* ================================================================= *)
(** * Vocabulary of the properties and sample data *)

Definition decimal (n : nat) : string := NilEmpty.string_of_uint (Nat.to_uint n).

(** ** A responder table with an exact p-value just below 0.05 *)

Definition b_cell_row (sid : string) (pct : Q) (resp : string) : Resp.t :=
  {| Resp.sample_id := sid;
     Resp.population := "b_cell";
     Resp.percentage := Fin pct;
     Resp.response := Some resp |}.

(** Three responders at 10.25, 10.5 and 10.75 percent, sixty-one
    non-responders at 1, 2, ..., 61 percent. *)
Definition narrow_table : list Resp.t :=
  [ b_cell_row "r1" (1025 # 100) "yes";
    b_cell_row "r2" (1050 # 100) "yes";
    b_cell_row "r3" (1075 # 100) "yes" ]
  ++ map (fun i => b_cell_row ("n" ++ decimal i) (Q_of_nat i) "no") (seq 1 61).

Definition narrow_row : SigRow :=
  {| sig_population := "b_cell";
     u_statistic := Fin 30;
     p_value := Fin (1 # 20);
     significant := true |}.

(** ** Order of the sort keys *)

Definition str_lt (a b : string) : Prop := String.compare a b = Lt.

Definition str_le (a b : string) : Prop := String.compare a b <> Gt.

(** Lexicographic order of (sample, population): by sample first, by
    population among equal samples. *)
Definition lex_le (k1 k2 : string * string) : Prop :=
  str_lt (fst k1) (fst k2) \/ (fst k1 = fst k2 /\ str_le (snd k1) (snd k2)).

(** ** Decidable forms of the store invariants *)

Fixpoint distinctb (l : list string) : bool :=
  match l with
  | [] => true
  | x :: rest => negb (existsb (String.eqb x) rest) && distinctb rest
  end.

Definition memb (x : string) (l : list string) : bool := existsb (String.eqb x) l.

Definition pk_uniqueb (st : Store) : bool :=
  distinctb (map Project.id (projects st))
  && distinctb (map Subject.id (subjects st))
  && distinctb (map Sample.id (samples st)).

Definition ref_integrityb (st : Store) : bool :=
  forallb (fun sub => memb (Subject.project_id sub) (map Project.id (projects st)))
          (subjects st)
  && forallb (fun s => memb (Sample.subject_id s) (map Subject.id (subjects st)))
             (samples st)
  && forallb (fun cc => memb (CellCount.sample_id cc) (map Sample.id (samples st)))
             (cell_counts st).

Definition wf_storeb (st : Store) : bool := pk_uniqueb st && ref_integrityb st.

(** ** The frequency table as the specification words it *)




(** The sum of [count] over the rows of sample [k] in a joined frame. *)
Definition total_in (df : list Joined.t) (k : string) : Z :=
  sum_Z (map Joined.count
           (filter (fun r => String.eqb (Joined.sample_id r) k) df)).

(** ** Loading *)

(** The columns of a [cell_counts] row other than its row number. *)
Definition cell_cols (cc : CellCount.t) : string * string * Z :=
  (CellCount.sample_id cc, CellCount.population cc, CellCount.count cc).

(** Lines that share a subject id agree on the subject columns, and
    lines that share a sample id agree on the sample columns. *)
Definition agree_on_ids (df : list CsvRow.t) : bool :=
  forallb (fun r1 =>
    forallb (fun r2 =>
      implb (String.eqb (CsvRow.subject r1) (CsvRow.subject r2))
            (if subject_cols_dec (select_subject r1) (select_subject r2)
             then true else false)
      && implb (String.eqb (CsvRow.sample r1) (CsvRow.sample r2))
               (if sample_cols_dec (select_sample r1) (select_sample r2)
                then true else false))
      df)
    df.

Definition csv_row (project subject condition : string) (age : Z) (sex : string)
  (treatment response : option string) (sample sample_type : string)
  (time : Z) (b cd8 cd4 nk mono : Z) : CsvRow.t :=
  {| CsvRow.project := project; CsvRow.subject := subject;
     CsvRow.condition := condition; CsvRow.age := age; CsvRow.sex := sex;
     CsvRow.treatment := treatment; CsvRow.response := response;
     CsvRow.sample := sample; CsvRow.sample_type := sample_type;
     CsvRow.time_from_treatment_start := time;
     CsvRow.b_cell := b; CsvRow.cd8_t_cell := cd8; CsvRow.cd4_t_cell := cd4;
     CsvRow.nk_cell := nk; CsvRow.monocyte := mono |}.

Open Scope string_scope.

(** A small source: two projects, four subjects, five samples; subject
    [sbj1] has two baseline samples. *)
Definition demo_csv : list CsvRow.t :=
  [ csv_row "prj1" "sbj1" "melanoma" 57 "M" (Some "miraclib") (Some "yes")
      "s1" "PBMC" 0 50 0 0 50 0;
    csv_row "prj1" "sbj1" "melanoma" 57 "M" (Some "miraclib") (Some "yes")
      "s2" "PBMC" 0 10 20 30 25 15;
    csv_row "prj1" "sbj2" "melanoma" 40 "F" (Some "miraclib") (Some "no")
      "s3" "PBMC" 0 200 100 300 250 150;
    csv_row "prj2" "sbj3" "melanoma" 63 "M" (Some "miraclib") (Some "no")
      "s4" "PBMC" 7 30 30 30 5 5;
    csv_row "prj2" "sbj4" "healthy" 30 "F" None None
      "s5" "WB" 0 1 2 3 4 5 ].

Definition demo_store : Store := snd (load_csv init_db demo_csv).


(** Two lines for one subject id that disagree on the age. *)
Definition conflicting_csv : list CsvRow.t :=
  [ csv_row "prj1" "sbj1" "melanoma" 57 "M" (Some "miraclib") (Some "yes")
      "s1" "PBMC" 0 50 0 0 50 0;
    csv_row "prj1" "sbj1" "melanoma" 58 "M" (Some "miraclib") (Some "yes")
      "s2" "PBMC" 7 10 20 30 25 15 ].

(** The same line twice. *)
Definition repeated_csv : list CsvRow.t :=
  [ csv_row "prj1" "sbj1" "melanoma" 57 "M" (Some "miraclib") (Some "yes")
      "s1" "PBMC" 0 50 0 0 50 0;
    csv_row "prj1" "sbj1" "melanoma" 57 "M" (Some "miraclib") (Some "yes")
      "s1" "PBMC" 0 50 0 0 50 0 ].

Close Scope string_scope.

(** ** Distinct subjects of a cohort *)

(** The number of distinct subject ids among the rows of a cohort. *)
Definition distinct_subject_count (cohort : list Baseline.t) : nat :=
  List.length (nodup string_dec (map Baseline.subject_id cohort)).

Definition with_response (v : option string) (cohort : list Baseline.t)
  : list Baseline.t :=
  filter (fun b => if opt_string_dec (Baseline.response b) v then true else false)
         cohort.

Definition with_sex (v : string) (cohort : list Baseline.t) : list Baseline.t :=
  filter (fun b => if string_dec (Baseline.sex b) v then true else false) cohort.

Definition sum_nat (l : list nat) : nat := fold_right Nat.add 0%nat l.

Definition key_dec (a b : string * string) : {a = b} + {a <> b}.
Proof. decide equality; apply string_dec. Defined.

(** Three responders below three non-responders. *)
Definition separated_table : list Resp.t :=
  [ b_cell_row "s1" 10 "yes"; b_cell_row "s2" 20 "yes"; b_cell_row "s3" 30 "yes";
    b_cell_row "s4" 40 "no"; b_cell_row "s5" 50 "no"; b_cell_row "s6" 60 "no" ].

(** ** Empty groups and undefined percentages *)

(** The row of a test that returned NaN for the statistic and the
    p-value. *)
Definition nan_row (pop : string) : SigRow :=
  {| sig_population := pop;
     u_statistic := NaN;
     p_value := NaN;
     significant := false |}.

(** The message of the exception contains the population name. *)
Definition names_population (e : exn) (pop : string) : bool :=
  match e with
  | ValueError msg =>
      match String.index 0 pop msg with
      | Some _ => true
      | None => false
      end
  | _ => false
  end.


(** The response is one of the two labels of the test. *)
Definition yes_or_no (r : Resp.t) : bool :=
  opt_is (Resp.response r) "yes" || opt_is (Resp.response r) "no".



Open Scope string_scope.

(** Two responders and no non-responder. *)
Definition lone_group_table : list Resp.t :=
  [ b_cell_row "s1" 10 "yes"; b_cell_row "s2" 20 "yes" ].



(** A table with a row whose response is null and one whose response is
    another word, and the same table without them. *)
Definition mixed_table : list Resp.t :=
  [ b_cell_row "s1" 10 "yes";
    {| Resp.sample_id := "s2"; Resp.population := "b_cell";
       Resp.percentage := Fin 99; Resp.response := None |};
    b_cell_row "s3" 20 "no";
    b_cell_row "s4" 1 "unknown";
    b_cell_row "s5" 30 "no" ].



Close Scope string_scope.

(** ** Further vocabulary: loads *)

(** No project, subject or sample id of the input is in the store. *)
Definition fresh_ids (st : Store) (df : list CsvRow.t) : bool :=
  forallb (fun r =>
             negb (memb (CsvRow.project r) (map Project.id (projects st)))
             && negb (memb (CsvRow.subject r) (map Subject.id (subjects st)))
             && negb (memb (CsvRow.sample r) (map Sample.id (samples st))))
          df.

(** The store after a sequence of loads, rejected or not. *)
Definition load_all (csvs : list (list CsvRow.t)) (st : Store) : Store :=
  fold_left (fun st df => snd (load_csv st df)) csvs st.

(** The sum of the five population columns of a line. *)
Definition line_total (r : CsvRow.t) : Z :=
  (CsvRow.b_cell r + CsvRow.cd8_t_cell r + CsvRow.cd4_t_cell r
   + CsvRow.nk_cell r + CsvRow.monocyte r)%Z.

(** The frequency row that a line of the source gives for one of its
    population columns. *)
Definition line_frequency (r : CsvRow.t) (pop : string) : Freq.t :=
  {| Freq.sample := CsvRow.sample r;
     Freq.project_id := CsvRow.project r;
     Freq.condition := CsvRow.condition r;
     Freq.treatment := CsvRow.treatment r;
     Freq.sample_type := CsvRow.sample_type r;
     Freq.total_count := line_total r;
     Freq.population := pop;
     Freq.count := CsvRow.column pop r;
     Freq.percentage := percentage_of (CsvRow.column pop r) (line_total r) |}.

(** ** Further vocabulary: percentages *)







(** The select boxes with project [prj1] chosen and "All" elsewhere. *)
Definition prj1_selection : Selection :=
  {| sel_project := "prj1";
     sel_condition := "All";
     sel_treatment := Some "All"%string;
     sel_sample_type := "All" |}.

(** The selection that filters on the project only. *)
Definition select_project (p : string) : Selection :=
  {| sel_project := p;
     sel_condition := "All";
     sel_treatment := Some "All"%string;
     sel_sample_type := "All" |}.

(** The selection that filters on the treatment only. *)
Definition select_treatment (t : option string) : Selection :=
  {| sel_project := "All";
     sel_condition := "All";
     sel_treatment := t;
     sel_sample_type := "All" |}.

(** A frequency table with null treatments only. *)
Definition untreated_table : list Freq.t :=
  map (fun r => {| Freq.sample := Freq.sample r;
                   Freq.total_count := Freq.total_count r;
                   Freq.population := Freq.population r;
                   Freq.count := Freq.count r;
                   Freq.percentage := Freq.percentage r;
                   Freq.project_id := Freq.project_id r;
                   Freq.condition := Freq.condition r;
                   Freq.treatment := None;
                   Freq.sample_type := Freq.sample_type r |})
      (get_frequency_table demo_store).

(* ================================================================= *)
(** * Rounding *)

Lemma round_half_even_comp (q r : Q) :
  q == r -> round_half_even q = round_half_even r.
Proof.
  intros E. unfold round_half_even.
  rewrite (Qfloor_comp _ _ E).
  assert (C : (q - inject_Z (Qfloor r) ?= 1 # 2)
              = (r - inject_Z (Qfloor r) ?= 1 # 2)).
  { apply Qcompare_comp; [rewrite E; reflexivity | reflexivity]. }
  rewrite C. reflexivity.
Qed.

(** The rounded integer is within one half of the argument. *)
Lemma round_half_even_near (q : Q) :
  inject_Z (round_half_even q) - (1 # 2) <= q /\
  q <= inject_Z (round_half_even q) + (1 # 2).
Proof.
  unfold round_half_even.
  pose proof (Qfloor_le q) as Lo.
  pose proof (Qlt_floor q) as Hi.
  rewrite inject_Z_plus in Hi. change (inject_Z 1) with 1 in Hi.
  set (n := Qfloor q) in *.
  destruct (Qcompare_spec (q - inject_Z n) (1 # 2)) as [E | L | G].
  - destruct (Z.even n);
      [| rewrite inject_Z_plus; change (inject_Z 1) with 1]; split; lra.
  - split; lra.
  - rewrite inject_Z_plus. change (inject_Z 1) with 1. split; lra.
Qed.

Lemma round_half_even_inject (n : Z) : round_half_even (inject_Z n) = n.
Proof.
  unfold round_half_even. rewrite Qfloor_Z.
  assert (C : (inject_Z n - inject_Z n ?= 1 # 2) = Lt).
  { rewrite <- Qlt_alt.
    setoid_replace (inject_Z n - inject_Z n) with 0 by ring. reflexivity. }
  rewrite C. reflexivity.
Qed.

Lemma round_half_even_mono (q r : Q) :
  q <= r -> (round_half_even q <= round_half_even r)%Z.
Proof.
  intros L.
  destruct (Z_le_gt_dec (round_half_even q) (round_half_even r)) as [ok | bad];
    [exact ok |].
  exfalso.
  destruct (round_half_even_near q) as [Lq _].
  destruct (round_half_even_near r) as [_ Ur].
  assert (S : inject_Z (round_half_even r) + 1 <= inject_Z (round_half_even q)).
  { change 1 with (inject_Z 1). rewrite <- inject_Z_plus.
    rewrite <- Zle_Qle. lia. }
  assert (E : q == r) by lra.
  apply round_half_even_comp in E. lia.
Qed.

Lemma round_to_value (d : nat) (q : Q) :
  round_to d q ==
  inject_Z (round_half_even (q * inject_Z (pow10 d))) / inject_Z (pow10 d).
Proof. unfold round_to. apply Qred_correct. Qed.


Lemma scaled_half_even_ge (q : Q) :
  5 # 100 <= q -> (500 <= round_half_even (q * inject_Z (pow10 4)))%Z.
Proof.
  intros H. rewrite <- (round_half_even_inject 500).
  apply round_half_even_mono.
  change (pow10 4) with 10000%Z.
  change (inject_Z 500) with (500 # 1). change (inject_Z 10000) with (10000 # 1).
  lra.
Qed.

Lemma scaled_half_even_le (q : Q) :
  q <= 5 # 100 -> (round_half_even (q * inject_Z (pow10 4)) <= 500)%Z.
Proof.
  intros H.
  apply Z.le_trans with (round_half_even (inject_Z 500));
    [| rewrite round_half_even_inject; apply Z.le_refl].
  apply round_half_even_mono.
  change (pow10 4) with 10000%Z.
  change (inject_Z 500) with (500 # 1). change (inject_Z 10000) with (10000 # 1).
  lra.
Qed.

Lemma ten_thousandths_lt (z : Z) :
  inject_Z z / inject_Z (pow10 4) < 5 # 100 <-> (z < 500)%Z.
Proof.
  change (pow10 4) with 10000%Z.
  unfold Qlt, Qdiv, Qmult, Qinv, inject_Z. simpl. lia.
Qed.

Lemma ten_thousandths_le (z : Z) :
  inject_Z z / inject_Z (pow10 4) <= 5 # 100 <-> (z <= 500)%Z.
Proof.
  change (pow10 4) with 10000%Z.
  unfold Qle, Qdiv, Qmult, Qinv, inject_Z. simpl. lia.
Qed.

Lemma reported_below_alpha (q : Q) : round_to 4 q < 5 # 100 -> q < 5 # 100.
Proof.
  intros H. rewrite round_to_value in H. apply ten_thousandths_lt in H.
  destruct (Qlt_le_dec q (5 # 100)) as [L | G]; [exact L |].
  apply scaled_half_even_ge in G. lia.
Qed.

Lemma below_alpha_reported (q : Q) : q < 5 # 100 -> round_to 4 q <= 5 # 100.
Proof.
  intros H. rewrite round_to_value. apply ten_thousandths_le.
  apply scaled_half_even_le. apply Qlt_le_weak. exact H.
Qed.

(** A reported p-value below 0.05 comes from a p-value below 0.05, and
    a p-value below 0.05 is reported as at most 0.05. *)
Lemma flag_and_reported (p : f64) :
  (f64_ltb (py_round 4 p) alpha = true -> f64_ltb p alpha = true) /\
  (f64_ltb p alpha = true -> f64_leb (py_round 4 p) alpha = true).
Proof.
  destruct p as [q | [|] |]; try (split; simpl; congruence).
  unfold py_round, f64_round, alpha, f64_ltb, f64_leb.
  split.
  - destruct (Qcompare_spec (round_to 4 q) (5 # 100)) as [E | L | G];
      try discriminate.
    intros _. apply reported_below_alpha in L.
    destruct (Qcompare_spec q (5 # 100)) as [E' | L' | G']; try reflexivity; lra.
  - destruct (Qcompare_spec q (5 # 100)) as [E | L | G]; try discriminate.
    intros _. apply below_alpha_reported in L.
    destruct (Qcompare_spec (round_to 4 q) (5 # 100)) as [E' | L' | G'];
      try reflexivity.
    lra.
Qed.

(* ================================================================= *)
(** * Loops that may raise *)

Lemma for_each_ok {A B : Type} (body : A -> result B) (items : list A)
  (bs : list B) :
  for_each body items = Ok bs -> Forall2 (fun a b => body a = Ok b) items bs.
Proof.
  revert bs. induction items as [| a rest IH]; intros bs H; simpl in H.
  - inversion H. constructor.
  - destruct (body a) as [b | e] eqn:Ea; simpl in H; [| discriminate].
    destruct (for_each body rest) as [bs' | e] eqn:Er; simpl in H;
      [| discriminate].
    inversion H; subst. constructor; [exact Ea | apply IH; reflexivity].
Qed.

Lemma for_each_raise {A B : Type} (body : A -> result B) (items : list A)
  (e : exn) :
  for_each body items = Raise e -> exists a, In a items /\ body a = Raise e.
Proof.
  induction items as [| a rest IH]; intros H; simpl in H; [discriminate |].
  destruct (body a) as [b | e'] eqn:Ea; simpl in H.
  - destruct (for_each body rest) as [bs' | e''] eqn:Er; simpl in H;
      [discriminate |].
    inversion H; subst. destruct (IH eq_refl) as [a' [I R]].
    exists a'. split; [right; exact I | exact R].
  - inversion H; subst. exists a. split; [left; reflexivity | exact Ea].
Qed.

Lemma for_each_total {A B : Type} (body : A -> result B) (items : list A) :
  (forall a, In a items -> exists b, body a = Ok b) ->
  exists bs, for_each body items = Ok bs.
Proof.
  induction items as [| a rest IH]; intros H; simpl.
  - exists []. reflexivity.
  - destruct (H a (or_introl eq_refl)) as [b Eb]. rewrite Eb. simpl.
    destruct IH as [bs Ebs]; [intros a' I; apply H; right; exact I |].
    rewrite Ebs. simpl. exists (b :: bs). reflexivity.
Qed.

(* ================================================================= *)
(** * The significance flag *)

Lemma test_population_ok pol sf df pop (r : SigRow) :
  test_population pol sf df pop = Ok r ->
  exists stat p,
    mannwhitneyu pol sf (responders df pop) (non_responders df pop) = Ok (stat, p)
    /\ r = {| sig_population := pop;
              u_statistic := py_round 2 stat;
              p_value := py_round 4 p;
              significant := f64_ltb p alpha |}.
Proof.
  unfold test_population. intros H.
  destruct (mannwhitneyu pol sf (responders df pop) (non_responders df pop))
    as [[stat p] | e]; simpl in H; [| discriminate].
  inversion H; subst. exists stat, p. split; reflexivity.
Qed.

(** C1, as the code has it: in every row of the significance table the
    flag is [p < 0.05] for the p-value that the test returned, and the
    reported p-value is that p-value rounded to four decimals.  Hence a
    reported p-value below 0.05 carries the flag, and a flagged row
    reports at most 0.05. *)
Theorem significant_flag_of_unrounded_p pol sf (df : list Resp.t)
  (rows : list SigRow) :
  get_significance_tests pol sf df = Ok rows ->
  Forall (fun r =>
    (exists stat p,
        mannwhitneyu pol sf (responders df (sig_population r))
          (non_responders df (sig_population r)) = Ok (stat, p)
        /\ p_value r = py_round 4 p
        /\ significant r = f64_ltb p alpha)
    /\ (f64_ltb (p_value r) alpha = true -> significant r = true)
    /\ (significant r = true -> f64_leb (p_value r) alpha = true)) rows.
Proof.
  intros H. unfold get_significance_tests in H. apply for_each_ok in H.
  induction H as [| pop r pops rows' Hr _ IH]; constructor; [| exact IH].
  apply test_population_ok in Hr. destruct Hr as [stat [p [Hm ->]]]. simpl.
  split; [exists stat, p; repeat split; exact Hm |].
  apply flag_and_reported.
Qed.

Lemma significant_flag_of_unrounded_p_witness :
  exists rows,
    get_significance_tests EmptyNaN (fun _ _ => NaN) narrow_table = Ok rows /\
    Forall (fun r =>
      (f64_ltb (p_value r) alpha = true -> significant r = true)
      /\ (significant r = true -> f64_leb (p_value r) alpha = true)) rows.
Proof.
  exists [narrow_row]. split; [vm_compute; reflexivity |].
  assert (E : get_significance_tests EmptyNaN (fun _ _ => NaN) narrow_table
              = Ok [narrow_row]) by (vm_compute; reflexivity).
  pose proof (significant_flag_of_unrounded_p _ _ _ _ E) as F.
  eapply Forall_impl; [| exact F]. intros r [_ K]. exact K.
Defined.

(** C1, as stated, fails: with three responders between the tenth and
    the eleventh of sixty-one non-responders the exact two-sided p-value
    is 2082/41664, about 0.04997; the row is flagged, yet it reports
    0.05, which is not below 0.05. *)
Lemma significant_flag_not_reported_p :
  (forall pol sf, get_significance_tests pol sf narrow_table = Ok [narrow_row])
  /\ significant narrow_row = true
  /\ f64_ltb (p_value narrow_row) alpha = false.
Proof.
  split; [intros pol sf; vm_compute; reflexivity |].
  split; reflexivity.
Qed.

(* ================================================================= *)
(** * String order and sorting *)

Lemma ascii_compare_lt_trans (a b c : ascii) :
  Ascii.compare a b = Lt -> Ascii.compare b c = Lt -> Ascii.compare a c = Lt.
Proof.
  unfold Ascii.compare. rewrite !N.compare_lt_iff. apply N.lt_trans.
Qed.

Lemma string_compare_refl (s : string) : String.compare s s = Eq.
Proof.
  induction s as [| a s IH]; simpl; [reflexivity |].
  unfold Ascii.compare. rewrite N.compare_refl. exact IH.
Qed.

Lemma string_compare_lt_trans (s1 s2 s3 : string) :
  str_lt s1 s2 -> str_lt s2 s3 -> str_lt s1 s3.
Proof.
  unfold str_lt. revert s2 s3.
  induction s1 as [| a s1 IH]; intros [| b s2] [| c s3]; simpl;
    try congruence.
  destruct (Ascii.compare a b) eqn:Eab; try discriminate.
  - apply Ascii.compare_eq_iff in Eab. subst b.
    destruct (Ascii.compare a c) eqn:Eac; try congruence.
    apply IH.
  - intros _. destruct (Ascii.compare b c) eqn:Ebc; try discriminate.
    + apply Ascii.compare_eq_iff in Ebc. subst c. rewrite Eab. reflexivity.
    + rewrite (ascii_compare_lt_trans _ _ _ Eab Ebc). reflexivity.
Qed.

Lemma string_leb_le (a b : string) : String.leb a b = true <-> str_le a b.
Proof.
  unfold String.leb, str_le.
  destruct (String.compare a b); split; congruence.
Qed.

Lemma str_le_cases (a b : string) : str_le a b <-> str_lt a b \/ a = b.
Proof.
  unfold str_le, str_lt. split.
  - destruct (String.compare a b) eqn:E; intros H.
    + right. apply String.compare_eq_iff. exact E.
    + left. reflexivity.
    + congruence.
  - intros [H | ->]; [rewrite H; discriminate |].
    rewrite string_compare_refl. discriminate.
Qed.

Lemma str_le_trans (a b c : string) : str_le a b -> str_le b c -> str_le a c.
Proof.
  rewrite !str_le_cases. intros [H1 | ->] [H2 | ->]; auto.
  left. eapply string_compare_lt_trans; eassumption.
Qed.

Lemma string_leb_trans (a b c : string) :
  String.leb a b = true -> String.leb b c = true -> String.leb a c = true.
Proof. rewrite !string_leb_le. apply str_le_trans. Qed.

Lemma key_leb_lex (k1 k2 : string * string) : key_leb k1 k2 = true <-> lex_le k1 k2.
Proof.
  unfold key_leb, lex_le, str_lt. rewrite <- string_leb_le.
  destruct (String.compare (fst k1) (fst k2)) eqn:E; split.
  - intros H. right. split; [apply String.compare_eq_iff; exact E | exact H].
  - intros [H | [_ H]]; [discriminate | exact H].
  - intros _. left. reflexivity.
  - reflexivity.
  - discriminate.
  - intros [H | [H _]]; [discriminate |].
    rewrite H, string_compare_refl in E. discriminate.
Qed.

Lemma key_leb_total (k1 k2 : string * string) :
  key_leb k1 k2 = true \/ key_leb k2 k1 = true.
Proof.
  unfold key_leb. rewrite (String.compare_antisym (fst k1) (fst k2)).
  destruct (String.compare (fst k2) (fst k1)); simpl; auto.
  apply String.leb_total.
Qed.

Lemma key_leb_trans (k1 k2 k3 : string * string) :
  key_leb k1 k2 = true -> key_leb k2 k3 = true -> key_leb k1 k3 = true.
Proof.
  rewrite !key_leb_lex. unfold lex_le.
  intros [L1 | [E1 M1]] [L2 | [E2 M2]].
  - left. eapply string_compare_lt_trans; eassumption.
  - left. rewrite <- E2. exact L1.
  - left. rewrite E1. exact L2.
  - right. split; [congruence | eapply str_le_trans; eassumption].
Qed.

Section Sorting.
Context {A : Type} (leb : A -> A -> bool).
Hypothesis leb_total : forall a b, leb a b = true \/ leb b a = true.
Hypothesis leb_trans : forall a b c, leb a b = true -> leb b c = true -> leb a c = true.

Lemma insert_sorted_perm (x : A) (l : list A) :
  Permutation (insert_sorted leb x l) (x :: l).
Proof.
  induction l as [| y rest IH]; simpl; [constructor; constructor |].
  destruct (leb x y); [apply Permutation_refl |].
  eapply perm_trans; [apply perm_skip; exact IH | apply perm_swap].
Qed.

Lemma sort_by_perm (l : list A) : Permutation (sort_by leb l) l.
Proof.
  induction l as [| x rest IH]; simpl; [constructor |].
  eapply perm_trans; [apply insert_sorted_perm | apply perm_skip; exact IH].
Qed.

Lemma insert_sorted_sorted (x : A) (l : list A) :
  StronglySorted (fun a b => leb a b = true) l ->
  StronglySorted (fun a b => leb a b = true) (insert_sorted leb x l).
Proof.
  induction l as [| y rest IH]; intros S; simpl.
  - constructor; constructor.
  - inversion S as [| ? ? Srest Fy]; subst.
    destruct (leb x y) eqn:E.
    + constructor; [exact S |].
      constructor; [exact E |].
      eapply Forall_impl; [| exact Fy]. intros z Hz. eapply leb_trans; eassumption.
    + constructor; [apply IH; exact Srest |].
      eapply Permutation_Forall;
        [apply Permutation_sym; apply insert_sorted_perm |].
      constructor; [| exact Fy].
      destruct (leb_total x y) as [H | H]; [congruence | exact H].
Qed.

Lemma sort_by_sorted (l : list A) :
  StronglySorted (fun a b => leb a b = true) (sort_by leb l).
Proof.
  induction l as [| x rest IH]; simpl; [constructor |].
  apply insert_sorted_sorted. exact IH.
Qed.
End Sorting.

(* ================================================================= *)
(** * The frequency table *)

(** ** Keys *)

Lemma distinctb_NoDup (l : list string) : distinctb l = true <-> NoDup l.
Proof.
  induction l as [| x rest IH]; simpl.
  - split; [constructor | reflexivity].
  - rewrite andb_true_iff, negb_true_iff, IH. split.
    + intros [N D]. constructor; [| exact D].
      intros I. assert (E : existsb (String.eqb x) rest = true).
      { apply existsb_exists. exists x. split; [exact I | apply String.eqb_refl]. }
      congruence.
    + intros N. inversion N as [| ? ? NI D]; subst. split; [| exact D].
      destruct (existsb (String.eqb x) rest) eqn:E; [| reflexivity].
      apply existsb_exists in E. destruct E as [y [I E]].
      apply String.eqb_eq in E. subst y. contradiction.
Qed.

Lemma memb_In (x : string) (l : list string) : memb x l = true <-> In x l.
Proof.
  unfold memb. rewrite existsb_exists. split.
  - intros [y [I E]]. apply String.eqb_eq in E. subst y. exact I.
  - intros I. exists x. split; [exact I | apply String.eqb_refl].
Qed.

Lemma wf_storeb_sound (st : Store) : wf_storeb st = true -> wf_store st.
Proof.
  unfold wf_storeb, pk_uniqueb, ref_integrityb, wf_store, pk_unique, ref_integrity.
  rewrite !andb_true_iff, !distinctb_NoDup, !forallb_forall.
  intros [[[P S] M] [[R1 R2] R3]].
  repeat split; try assumption.
  - intros sub I. apply memb_In. apply R1. exact I.
  - intros s I. apply memb_In. apply R2. exact I.
  - intros cc I. apply memb_In. apply R3. exact I.
Qed.

(** A key that occurs once selects its row. *)
Lemma filter_by_key {A : Type} (key : A -> string) (l : list A) (x : A) :
  NoDup (map key l) -> In x l ->
  filter (fun y => String.eqb (key x) (key y)) l = [x].
Proof.
  induction l as [| y rest IH]; intros N I; [contradiction |].
  simpl in N. inversion N as [| ? ? NI D]; subst. simpl.
  destruct I as [-> | I].
  - rewrite String.eqb_refl. f_equal.
    clear IH N D. induction rest as [| z rest IH]; simpl; [reflexivity |].
    destruct (String.eqb (key x) (key z)) eqn:E.
    + apply String.eqb_eq in E. exfalso. apply NI. simpl. left. symmetry. exact E.
    + apply IH. intros I. apply NI. simpl. right. exact I.
  - destruct (String.eqb (key x) (key y)) eqn:E.
    + apply String.eqb_eq in E. exfalso. apply NI. rewrite <- E.
      apply in_map. exact I.
    + apply IH; assumption.
Qed.

Lemma flat_map_singletons {A B : Type} (f : A -> list B) (g : A -> B) (l : list A) :
  (forall a, In a l -> f a = [g a]) -> flat_map f l = map g l.
Proof.
  induction l as [| a rest IH]; intros H; simpl; [reflexivity |].
  rewrite (H a (or_introl eq_refl)). simpl. f_equal.
  apply IH. intros a' I. apply H. right. exact I.
Qed.

(** ** The three-table join on a well-formed store *)



(** ** Totals per sample *)

Lemma filter_keyed (g : string -> Z) (ks : list string) (k : string) :
  NoDup ks -> In k ks ->
  filter (fun t : string * Z => String.eqb k (fst t)) (map (fun k' => (k', g k')) ks)
  = [(k, g k)].
Proof.
  intros N I.
  pose proof (filter_by_key (fun t : string * Z => fst t)
                (map (fun k' => (k', g k')) ks) (k, g k)) as F.
  simpl in F. apply F.
  - rewrite map_map. simpl. rewrite map_id. exact N.
  - apply in_map_iff. exists k. split; [reflexivity | exact I].
Qed.

Lemma join_totals_rows (df : list Joined.t) :
  join_totals df (group_totals df)
  = map (fun r => (r, total_in df (Joined.sample_id r))) df.
Proof.
  unfold join_totals. apply flat_map_singletons. intros r I.
  unfold group_totals, unique.
  rewrite (filter_keyed (total_in df)).
  - reflexivity.
  - apply NoDup_nodup.
  - apply nodup_In. apply in_map. exact I.
Qed.



Lemma StronglySorted_weaken {A : Type} (R S : A -> A -> Prop) (l : list A) :
  (forall a b, R a b -> S a b) -> StronglySorted R l -> StronglySorted S l.
Proof.
  intros I H. induction H as [| x rest _ IH F]; constructor; [exact IH |].
  eapply Forall_impl; [| exact F]. intros y. apply I.
Qed.

Lemma sort_by_key_sorted {A : Type} (key : A -> string * string) (l : list A) :
  StronglySorted (fun a b => lex_le (key a) (key b))
    (sort_by (fun a b => key_leb (key a) (key b)) l).
Proof.
  apply StronglySorted_weaken
    with (R := fun a b => key_leb (key a) (key b) = true).
  - intros a b. apply key_leb_lex.
  - apply sort_by_sorted.
    + intros a b. apply key_leb_total.
    + intros a b c. apply key_leb_trans.
Qed.


(* ================================================================= *)
(** * Loading the store *)

(** ** Inserts under a primary key *)

Lemma key_taken {A : Type} (key : A -> string) (tbl : list A) (row : A) :
  existsb (fun old => String.eqb (key old) (key row)) tbl = true
  <-> In (key row) (map key tbl).
Proof.
  rewrite existsb_exists, in_map_iff. split.
  - intros [old [I E]]. apply String.eqb_eq in E. exists old. split; assumption.
  - intros [old [E I]]. exists old. split; [exact I | apply String.eqb_eq; exact E].
Qed.

Lemma insert_all_raise {A : Type} (key : A -> string) (rows tbl : list A) (e : exn) :
  insert_all key tbl rows = Raise e -> e = IntegrityError.
Proof.
  revert tbl. induction rows as [| r rest IH]; intros tbl H; simpl in H;
    [discriminate |].
  unfold insert_pk in H.
  destruct (existsb (fun old => String.eqb (key old) (key r)) tbl); simpl in H.
  - inversion H. reflexivity.
  - eapply IH. exact H.
Qed.

Lemma insert_all_ok {A : Type} (key : A -> string) (rows tbl tbl' : list A) :
  insert_all key tbl rows = Ok tbl' ->
  tbl' = tbl ++ rows /\
  NoDup (map key rows) /\
  (forall r, In r rows -> ~ In (key r) (map key tbl)).
Proof.
  revert tbl. induction rows as [| r rest IH]; intros tbl H; simpl in H.
  - inversion H. rewrite app_nil_r. repeat split; [constructor | intros r []].
  - unfold insert_pk in H.
    destruct (existsb (fun old => String.eqb (key old) (key r)) tbl) eqn:E;
      simpl in H; [discriminate |].
    destruct (IH _ H) as [-> [N F]].
    assert (Fr : ~ In (key r) (map key tbl)).
    { intros I. apply key_taken in I. congruence. }
    split; [rewrite <- app_assoc; reflexivity |].
    split.
    + simpl. constructor; [| exact N].
      intros I. apply in_map_iff in I. destruct I as [r' [E' I']].
      apply (F r' I'). rewrite map_app, in_app_iff. right. simpl. left.
      symmetry. exact E'.
    + intros r' [<- | I']; [exact Fr |].
      intros I. apply (F r' I'). rewrite map_app, in_app_iff. left. exact I.
Qed.


Lemma insert_all_clash {A : Type} (key : A -> string) (rows tbl : list A) (r : A) :
  In r rows -> In (key r) (map key tbl) ->
  insert_all key tbl rows = Raise IntegrityError.
Proof.
  intros I K.
  destruct (insert_all key tbl rows) as [tbl' | e] eqn:E.
  - apply insert_all_ok in E. destruct E as [_ [_ F]]. exfalso. exact (F r I K).
  - apply insert_all_raise in E. subst e. reflexivity.
Qed.

(** ** Cell counts appended by a flush *)

Lemma insert_cell_counts_cols (rows : list (string * string * Z)) (tbl : list CellCount.t) :
  exists added,
    fold_left insert_cell_count rows tbl = tbl ++ added /\
    map cell_cols added = rows.
Proof.
  revert tbl. induction rows as [| [[sid pop] n] rest IH]; intros tbl; simpl.
  - exists []. rewrite app_nil_r. split; reflexivity.
  - destruct (IH (tbl ++
       [{| CellCount.id := Z.of_nat (Datatypes.length tbl) + 1;
           CellCount.sample_id := sid; CellCount.population := pop;
           CellCount.count := n |}])) as [added [E M]].
    eexists (_ :: added). split.
    + rewrite E, <- app_assoc. reflexivity.
    + simpl. rewrite M. reflexivity.
Qed.

(** ** What a load leaves in the store *)

Lemma load_csv_commit (st : Store) (df : list CsvRow.t) :
  load_csv st df = commit st (pending df).
Proof. reflexivity. Qed.

Lemma load_csv_rejected (st : Store) (df : list CsvRow.t) (e : exn) (st' : Store) :
  load_csv st df = (Some e, st') -> e = IntegrityError /\ st' = st.
Proof.
  rewrite load_csv_commit. unfold commit, flush.
  destruct (insert_all Project.id (projects st) (new_projects (pending df)))
    as [ps | e1] eqn:E1; cbn [bind].
  - destruct (insert_all Subject.id (subjects st) (new_subjects (pending df)))
      as [sbs | e2] eqn:E2; cbn [bind].
    + destruct (insert_all Sample.id (samples st) (new_samples (pending df)))
        as [sms | e3] eqn:E3; cbn [bind].
      * discriminate.
      * intros H. inversion H; subst. split; [| reflexivity].
        eapply insert_all_raise. exact E3.
    + intros H. inversion H; subst. split; [| reflexivity].
      eapply insert_all_raise. exact E2.
  - intros H. inversion H; subst. split; [| reflexivity].
    eapply insert_all_raise. exact E1.
Qed.

Lemma load_csv_done (st : Store) (df : list CsvRow.t) (st' : Store) :
  load_csv st df = (None, st') ->
  insert_all Project.id (projects st) (new_projects (pending df))
    = Ok (projects st') /\
  insert_all Subject.id (subjects st) (new_subjects (pending df))
    = Ok (subjects st') /\
  insert_all Sample.id (samples st) (new_samples (pending df))
    = Ok (samples st') /\
  cell_counts st' = fold_left insert_cell_count (unpivot df) (cell_counts st).
Proof.
  rewrite load_csv_commit. unfold commit, flush.
  destruct (insert_all Project.id (projects st) (new_projects (pending df)))
    as [ps | e1]; cbn [bind]; [| discriminate].
  destruct (insert_all Subject.id (subjects st) (new_subjects (pending df)))
    as [sbs | e2]; cbn [bind]; [| discriminate].
  destruct (insert_all Sample.id (samples st) (new_samples (pending df)))
    as [sms | e3]; cbn [bind]; [| discriminate].
  intros H. inversion H; subst. simpl. repeat split; reflexivity.
Qed.



Lemma pending_project (df : list CsvRow.t) (r : CsvRow.t) :
  In r df -> In {| Project.id := CsvRow.project r |} (new_projects (pending df)).
Proof.
  intros I. unfold pending. cbn [new_projects new_subjects new_samples].
  apply in_map. apply nodup_In. apply in_map. exact I.
Qed.

Lemma pending_subject (df : list CsvRow.t) (r : CsvRow.t) :
  In r df -> In (mk_subject (select_subject r)) (new_subjects (pending df)).
Proof.
  intros I. unfold pending. cbn [new_projects new_subjects new_samples].
  apply in_map. apply nodup_In. apply in_map. exact I.
Qed.

Lemma pending_sample (df : list CsvRow.t) (r : CsvRow.t) :
  In r df -> In (mk_sample (select_sample r)) (new_samples (pending df)).
Proof.
  intros I. unfold pending. cbn [new_projects new_subjects new_samples].
  apply in_map. apply nodup_In. apply in_map. exact I.
Qed.


(** ** Deduplication of projects, subjects and samples *)

Lemma NoDup_map_eq {A B : Type} (f : A -> B) (l : list A) (x y : A) :
  NoDup (map f l) -> In x l -> In y l -> f x = f y -> x = y.
Proof.
  induction l as [| a rest IH]; intros N Ix Iy E; [contradiction |].
  simpl in N. inversion N as [| ? ? NI N']; subst.
  destruct Ix as [-> | Ix], Iy as [-> | Iy].
  - reflexivity.
  - exfalso. apply NI. rewrite E. apply in_map. exact Iy.
  - exfalso. apply NI. rewrite <- E. apply in_map. exact Ix.
  - apply IH; assumption.
Qed.

Lemma forallb_false {A : Type} (f : A -> bool) (l : list A) :
  forallb f l = false -> exists x, In x l /\ f x = false.
Proof.
  induction l as [| a rest IH]; simpl; [discriminate |].
  destruct (f a) eqn:E; simpl.
  - intros H. destruct (IH H) as [x [I F]]. exists x. split; [right |]; assumption.
  - intros _. exists a. split; [left; reflexivity | exact E].
Qed.


Lemma agree_on_ids_false (df : list CsvRow.t) :
  agree_on_ids df = false ->
  exists r1 r2, In r1 df /\ In r2 df /\
    ((CsvRow.subject r1 = CsvRow.subject r2 /\ select_subject r1 <> select_subject r2)
     \/ (CsvRow.sample r1 = CsvRow.sample r2 /\ select_sample r1 <> select_sample r2)).
Proof.
  unfold agree_on_ids. intros H.
  apply forallb_false in H. destruct H as [r1 [I1 H]].
  apply forallb_false in H. destruct H as [r2 [I2 H]].
  exists r1, r2. split; [exact I1 |]. split; [exact I2 |].
  apply andb_false_iff in H. destruct H as [H | H]; [left | right].
  - destruct (String.eqb_spec (CsvRow.subject r1) (CsvRow.subject r2)) as [E | N];
      [| discriminate].
    destruct (subject_cols_dec (select_subject r1) (select_subject r2)) as [e | n];
      [discriminate | split; assumption].
  - destruct (String.eqb_spec (CsvRow.sample r1) (CsvRow.sample r2)) as [E | N];
      [| discriminate].
    destruct (sample_cols_dec (select_sample r1) (select_sample r2)) as [e | n];
      [discriminate | split; assumption].
Qed.

Lemma select_subject_key (r : CsvRow.t) :
  Subject.id (mk_subject (select_subject r)) = CsvRow.subject r.
Proof. reflexivity. Qed.

Lemma select_sample_key (r : CsvRow.t) :
  Sample.id (mk_sample (select_sample r)) = CsvRow.sample r.
Proof. reflexivity. Qed.






(** ** Cell counts per sample and population *)

Lemma CELL_POPULATIONS_distinct : NoDup CELL_POPULATIONS.
Proof. apply distinctb_NoDup. reflexivity. Qed.

Lemma unpivot_keys (df : list CsvRow.t) (pops : list string) :
  map (fun c : string * string * Z => fst c)
    (flat_map (fun pop => map (fun r => (CsvRow.sample r, pop, CsvRow.column pop r)) df)
       pops)
  = flat_map (fun pop => map (fun r => (CsvRow.sample r, pop)) df) pops.
Proof.
  induction pops as [| pop rest IH]; simpl; [reflexivity |].
  rewrite map_app, IH, map_map. reflexivity.
Qed.

Lemma unpivot_keys_distinct (df : list CsvRow.t) (pops : list string) :
  NoDup pops -> NoDup (map CsvRow.sample df) ->
  NoDup (flat_map (fun pop => map (fun r => (CsvRow.sample r, pop)) df) pops).
Proof.
  intros NP NS. induction NP as [| pop rest NI _ IH]; simpl; [constructor |].
  apply NoDup_app.
  - rewrite <- (map_map CsvRow.sample (fun s => (s, pop))).
    apply NoDup_map_NoDup_ForallPairs; [| exact NS].
    intros a b _ _ E. inversion E. reflexivity.
  - exact IH.
  - intros [s p] I1 I2.
    apply in_map_iff in I1. destruct I1 as [r1 [E1 _]]. inversion E1; subst.
    apply in_flat_map in I2. destruct I2 as [pop' [Ipop I2]].
    apply in_map_iff in I2. destruct I2 as [r2 [E2 _]]. inversion E2; subst.
    contradiction.
Qed.

Lemma unpivot_sample (df : list CsvRow.t) (c : string * string * Z) :
  In c (unpivot df) -> exists r, In r df /\ fst (fst c) = CsvRow.sample r.
Proof.
  unfold unpivot. intros I. apply in_flat_map in I. destruct I as [pop [_ I]].
  apply in_map_iff in I. destruct I as [r [<- Ir]]. exists r. split; [exact Ir | reflexivity].
Qed.

(** C7, as the code has it: [cell_counts] has no uniqueness constraint
    and its rows are not deduplicated; a load in which every sample id
    is on one line keeps at most one row per (sample, population). *)
Theorem load_keeps_cell_counts_unique (st : Store) (df : list CsvRow.t) (st' : Store) :
  cell_count_unique st ->
  (forall cc, In cc (cell_counts st) ->
     In (CellCount.sample_id cc) (map Sample.id (samples st))) ->
  NoDup (map CsvRow.sample df) ->
  load_csv st df = (None, st') ->
  cell_count_unique st'.
Proof.
  intros U R N L. apply load_csv_done in L. destruct L as [_ [_ [M C]]].
  apply insert_all_ok in M. destruct M as [_ [_ Fresh]].
  destruct (insert_cell_counts_cols (unpivot df) (cell_counts st)) as [added [E Cols]].
  unfold cell_count_unique in *. rewrite C, E, map_app.
  assert (K : map (fun cc => (CellCount.sample_id cc, CellCount.population cc)) added
              = map (fun c : string * string * Z => fst c) (unpivot df)).
  { rewrite <- Cols, map_map. reflexivity. }
  apply NoDup_app.
  - exact U.
  - rewrite K. unfold unpivot. rewrite unpivot_keys.
    apply unpivot_keys_distinct; [apply CELL_POPULATIONS_distinct | exact N].
  - intros [s p] Iold Inew.
    apply in_map_iff in Iold. destruct Iold as [cc [Ecc Icc]]. inversion Ecc; subst.
    rewrite K in Inew. apply in_map_iff in Inew. destruct Inew as [c [Ec Ic]].
    apply unpivot_sample in Ic. destruct Ic as [r [Ir Es]].
    apply (Fresh _ (pending_sample df r Ir)).
    rewrite select_sample_key, <- Es, Ec. simpl. apply R. exact Icc.
Qed.

(** ** Loads keep the store well formed *)

Lemma init_db_wf : wf_store init_db.
Proof.
  repeat split; simpl; try constructor; intros ? [].
Qed.

Lemma keys_after_insert {A : Type} (key : A -> string) (tbl rows tbl' : list A) :
  NoDup (map key tbl) -> insert_all key tbl rows = Ok tbl' -> NoDup (map key tbl').
Proof.
  intros N H. apply insert_all_ok in H. destruct H as [-> [NR F]].
  rewrite map_app. apply NoDup_app; [exact N | exact NR |].
  intros k Ik Ir. apply in_map_iff in Ir. destruct Ir as [r [<- Ir]].
  exact (F r Ir Ik).
Qed.

Theorem load_csv_preserves_wf (st : Store) (df : list CsvRow.t) (st' : Store) :
  wf_store st -> load_csv st df = (None, st') -> wf_store st'.
Proof.
  intros [[UP [US UM]] [RS [RM RC]]] L.
  apply load_csv_done in L. destruct L as [P [S [M C]]].
  split.
  - repeat split; eapply keys_after_insert; eassumption.
  - apply insert_all_ok in P. destruct P as [EP _].
    apply insert_all_ok in S. destruct S as [ES _].
    apply insert_all_ok in M. destruct M as [EM _].
    destruct (insert_cell_counts_cols (unpivot df) (cell_counts st)) as [added [EC Cols]].
    unfold ref_integrity. rewrite EP, ES, EM, C, EC. repeat split.
    + intros sub I. rewrite map_app, in_app_iff. apply in_app_iff in I.
      destruct I as [I | I]; [left; apply RS; exact I | right].
      unfold pending in I. cbn [new_subjects] in I.
      apply in_map_iff in I. destruct I as [c [<- I]].
      apply nodup_In in I. apply in_map_iff in I. destruct I as [r [<- Ir]].
      apply (in_map Project.id) with (x := {| Project.id := CsvRow.project r |}).
      apply pending_project. exact Ir.
    + intros s I. rewrite map_app, in_app_iff. apply in_app_iff in I.
      destruct I as [I | I]; [left; apply RM; exact I | right].
      unfold pending in I. cbn [new_samples] in I.
      apply in_map_iff in I. destruct I as [c [<- I]].
      apply nodup_In in I. apply in_map_iff in I. destruct I as [r [<- Ir]].
      change (Sample.subject_id (mk_sample (select_sample r)))
        with (Subject.id (mk_subject (select_subject r))).
      apply in_map. apply pending_subject. exact Ir.
    + intros cc I. rewrite map_app, in_app_iff. apply in_app_iff in I.
      destruct I as [I | I]; [left; apply RC; exact I | right].
      assert (J : In (cell_cols cc) (unpivot df)).
      { rewrite <- Cols. apply in_map. exact I. }
      apply unpivot_sample in J. destruct J as [r [Ir Es]]. simpl in Es.
      rewrite Es, <- select_sample_key. apply in_map. apply pending_sample. exact Ir.
Qed.

(* ================================================================= *)
(** * Subject counts *)

(** ** Counting by group *)

Section CountBy.
Context {K : Type} (dec : forall a b : K, {a = b} + {a <> b}).
Context (leb : K -> K -> bool) (key : subject_row -> K).

Lemma sum_nat_perm (l l' : list nat) : Permutation l l' -> sum_nat l = sum_nat l'.
Proof.
  induction 1; simpl; lia.
Qed.

Lemma indicator_sum (ks : list K) (k : K) :
  NoDup ks -> In k ks ->
  sum_nat (map (fun k' => if dec k k' then 1 else 0)%nat ks) = 1%nat.
Proof.
  induction ks as [| a rest IH]; intros N I; [contradiction |].
  inversion N as [| ? ? NI N']; subst. simpl.
  destruct (dec k a) as [-> | D].
  - assert (Z : sum_nat (map (fun k' => if dec a k' then 1 else 0)%nat rest) = 0%nat).
    { clear IH N N' I. induction rest as [| b rest IH]; simpl; [reflexivity |].
      destruct (dec a b) as [-> | _].
      - exfalso. apply NI. left. reflexivity.
      - apply IH. intros I. apply NI. right. exact I. }
    rewrite Z. reflexivity.
  - destruct I as [-> | I]; [contradiction |]. apply IH; assumption.
Qed.

Lemma group_sizes_sum (ks : list K) (rows : list subject_row) :
  NoDup ks -> (forall r, In r rows -> In (key r) ks) ->
  sum_nat (map (fun k => List.length (filter (has_key dec key k) rows)) ks)
  = List.length rows.
Proof.
  intros N. induction rows as [| r rest IH]; intros C.
  - simpl. clear N C. induction ks as [| k ks' IHk]; simpl; [reflexivity | exact IHk].
  - assert (S : sum_nat (map (fun k => List.length (filter (has_key dec key k) (r :: rest))) ks)
                = (sum_nat (map (fun k' => if dec (key r) k' then 1 else 0)%nat ks)
                   + sum_nat (map (fun k => List.length (filter (has_key dec key k) rest)) ks))%nat).
    { clear. induction ks as [| k ks' IHk]; [reflexivity |].
      rewrite !map_cons. unfold sum_nat in *. cbn [fold_right]. rewrite IHk.
      cbn [filter]. destruct (has_key dec key k r) eqn:E; unfold has_key in E;
        destruct (dec (key r) k); try discriminate; cbn [List.length]; lia. }
    rewrite S, indicator_sum, IH; simpl; try lia; try assumption.
    + intros r' I. apply C. right. exact I.
    + apply C. left. reflexivity.
Qed.

Lemma count_by_perm (rows : list subject_row) :
  Permutation (count_by dec leb key rows)
    (map (fun k => (k, List.length (filter (has_key dec key k) rows)))
         (unique dec (map key rows))).
Proof. unfold count_by. apply sort_by_perm. Qed.

Lemma count_by_total (rows : list subject_row) :
  sum_nat (map snd (count_by dec leb key rows)) = List.length rows.
Proof.
  rewrite (sum_nat_perm _ _ (Permutation_map snd (count_by_perm rows))).
  rewrite map_map. simpl.
  apply group_sizes_sum; [apply NoDup_nodup |].
  intros r I. apply nodup_In. apply in_map. exact I.
Qed.

Lemma find_by_key (d : list (K * nat)) (k : K) (n : nat) :
  NoDup (map fst d) -> In (k, n) d ->
  find (fun kv => if dec (fst kv) k then true else false) d = Some (k, n).
Proof.
  induction d as [| [k' n'] rest IH]; intros N I; [contradiction |].
  simpl in N. inversion N as [| ? ? NI N']; subst. simpl.
  destruct (dec k' k) as [-> | D].
  - destruct I as [E | I]; [inversion E; reflexivity |].
    exfalso. apply NI. apply (in_map fst) in I. exact I.
  - destruct I as [E | I]; [inversion E; contradiction |]. apply IH; assumption.
Qed.

Lemma find_no_key (d : list (K * nat)) (k : K) :
  ~ In k (map fst d) ->
  find (fun kv => if dec (fst kv) k then true else false) d = None.
Proof.
  induction d as [| [k' n'] rest IH]; intros NI; simpl; [reflexivity |].
  destruct (dec k' k) as [-> | D].
  - exfalso. apply NI. left. reflexivity.
  - apply IH. intros I. apply NI. right. exact I.
Qed.

Lemma count_by_get (rows : list subject_row) (k : K) :
  dict_get dec (count_by dec leb key rows) k 0
  = List.length (filter (has_key dec key k) rows).
Proof.
  unfold dict_get.
  pose proof (count_by_perm rows) as P.
  set (groups := map (fun k => (k, List.length (filter (has_key dec key k) rows)))
                     (unique dec (map key rows))) in *.
  assert (Keys : map fst groups = unique dec (map key rows)).
  { unfold groups. rewrite map_map. simpl. apply map_id. }
  assert (N : NoDup (map fst (rev (count_by dec leb key rows)))).
  { rewrite map_rev. apply NoDup_rev.
    apply (Permutation_NoDup (Permutation_sym (Permutation_map fst P))).
    rewrite Keys. apply NoDup_nodup. }
  destruct (in_dec dec k (map key rows)) as [I | NI].
  - rewrite (find_by_key _ k (List.length (filter (has_key dec key k) rows)) N);
      [reflexivity |].
    apply (proj1 (in_rev _ _)). apply (Permutation_in _ (Permutation_sym P)).
    unfold groups. apply in_map_iff. exists k. split; [reflexivity |].
    apply nodup_In. exact I.
  - rewrite find_no_key.
    + symmetry. apply length_zero_iff_nil.
      destruct (filter (has_key dec key k) rows) as [| r rest] eqn:E; [reflexivity |].
      exfalso. apply NI.
      assert (J : In r (filter (has_key dec key k) rows)) by (rewrite E; left; reflexivity).
      apply filter_In in J. destruct J as [J H]. unfold has_key in H.
      destruct (dec (key r) k) as [<- | ]; [| discriminate].
      apply in_map. exact J.
    + intros I. apply NI. rewrite map_rev in I. apply (proj2 (in_rev _ _)) in I.
      apply (Permutation_in _ (Permutation_map fst P)) in I.
      rewrite Keys in I. apply nodup_In in I. exact I.
Qed.

End CountBy.

(** ** One row per subject *)

(** Every row of the baseline cohort copies its subject columns from a
    row of [subjects]. *)
Lemma baseline_row_subject (st : Store) (b : Baseline.t) :
  In b (get_baseline_samples st) ->
  exists sub, In sub (subjects st) /\
    Baseline.subject_id b = Subject.id sub /\
    Baseline.response b = Subject.response sub /\
    Baseline.sex b = Subject.sex sub.
Proof.
  unfold get_baseline_samples. intros I.
  apply in_flat_map in I. destruct I as [s [_ I]].
  apply in_map_iff in I. destruct I as [sub [<- I]].
  apply filter_In in I. destruct I as [I _].
  exists sub. repeat split. exact I.
Qed.

Lemma subject_rows_by_id (st : Store) (x y : subject_row) :
  pk_unique st ->
  In x (map select_subject_row (get_baseline_samples st)) ->
  In y (map select_subject_row (get_baseline_samples st)) ->
  row_subject x = row_subject y -> x = y.
Proof.
  intros [_ [U _]] Ix Iy E.
  apply in_map_iff in Ix, Iy.
  destruct Ix as [b1 [<- I1]], Iy as [b2 [<- I2]].
  apply baseline_row_subject in I1, I2.
  destruct I1 as [s1 [J1 [A1 [B1 C1]]]], I2 as [s2 [J2 [A2 [B2 C2]]]].
  unfold select_subject_row, row_subject in *. simpl in E.
  assert (S : s1 = s2).
  { apply (NoDup_map_eq Subject.id (subjects st)); try assumption. congruence. }
  subst s2. congruence.
Qed.

Lemma same_members_same_length (l l' : list string) :
  NoDup l -> NoDup l' -> (forall x, In x l <-> In x l') ->
  List.length l = List.length l'.
Proof.
  intros N N' H. apply Permutation_length. apply NoDup_Permutation; assumption.
Qed.

(** The rows of [rows] that pass [keep], after [unique()], are as many
    as the distinct ids among them, when an id determines its row. *)
Lemma distinct_rows_by_id (rows : list subject_row) (keep : subject_row -> bool) :
  (forall x y, In x rows -> In y rows -> row_subject x = row_subject y -> x = y) ->
  List.length (filter keep (unique subject_row_dec rows))
  = List.length (nodup string_dec (map row_subject (filter keep rows))).
Proof.
  intros Inj. rewrite <- (length_map row_subject).
  apply same_members_same_length.
  - apply NoDup_map_NoDup_ForallPairs.
    + intros x y Ix Iy. apply filter_In in Ix, Iy.
      destruct Ix as [Ix _], Iy as [Iy _]. apply nodup_In in Ix, Iy.
      apply Inj; assumption.
    + apply NoDup_filter. apply NoDup_nodup.
  - apply NoDup_nodup.
  - intros sid. rewrite nodup_In, !in_map_iff. split.
    + intros [r [E I]]. apply filter_In in I. destruct I as [I F].
      apply nodup_In in I. exists r. split; [exact E |].
      apply filter_In. split; assumption.
    + intros [r [E I]]. apply filter_In in I. destruct I as [I F].
      exists r. split; [exact E |]. apply filter_In. split; [| exact F].
      apply nodup_In. exact I.
Qed.

Lemma count_of_group (st : Store) (keep : subject_row -> bool) :
  pk_unique st ->
  List.length (filter keep (distinct_subjects (get_baseline_samples st)))
  = distinct_subject_count
      (filter (fun b => keep (select_subject_row b)) (get_baseline_samples st)).
Proof.
  intros U. unfold distinct_subjects, distinct_subject_count.
  rewrite distinct_rows_by_id.
  - rewrite filter_map_swap, map_map. reflexivity.
  - intros x y. apply subject_rows_by_id. exact U.
Qed.

Lemma filter_all {A : Type} (l : list A) : filter (fun _ => true) l = l.
Proof. induction l as [| a rest IH]; simpl; [| rewrite IH]; reflexivity. Qed.

(** C8: in the subject counts of the third tab every subject of the
    baseline cohort is counted once, however many of its samples
    qualify: the deduplicated frame has one row per subject id, the
    counts by response add up to the number of distinct subjects, and
    the count read for a response or a sex is the number of distinct
    subjects with that response or sex. *)
Theorem subjects_counted_once (st : Store) :
  pk_unique st ->
  let cohort := get_baseline_samples st in
  let subjects := distinct_subjects cohort in
  NoDup (map row_subject subjects) /\
  sum_nat (map snd (response_counts subjects)) = distinct_subject_count cohort /\
  (forall v, dict_get opt_string_dec (response_counts subjects) v 0
             = distinct_subject_count (with_response v cohort)) /\
  (forall v, dict_get string_dec (sex_counts subjects) v 0
             = distinct_subject_count (with_sex v cohort)) /\
  subject_metrics st =
    (distinct_subject_count (with_response (Some "yes"%string) cohort),
     distinct_subject_count (with_response (Some "no"%string) cohort),
     distinct_subject_count (with_sex "M" cohort),
     distinct_subject_count (with_sex "F" cohort)).
Proof.
  intros U cohort subjects.
  assert (R : forall v, dict_get opt_string_dec (response_counts subjects) v 0
                        = distinct_subject_count (with_response v cohort)).
  { intros v. unfold response_counts. rewrite count_by_get.
    unfold subjects, cohort. rewrite (count_of_group st _ U). reflexivity. }
  assert (S : forall v, dict_get string_dec (sex_counts subjects) v 0
                        = distinct_subject_count (with_sex v cohort)).
  { intros v. unfold sex_counts. rewrite count_by_get.
    unfold subjects, cohort. rewrite (count_of_group st _ U). reflexivity. }
  split.
  - unfold subjects, distinct_subjects, unique.
    apply NoDup_map_NoDup_ForallPairs; [| apply NoDup_nodup].
    intros x y Ix Iy. apply nodup_In in Ix, Iy.
    apply (subject_rows_by_id st); assumption.
  - split.
    + unfold response_counts. rewrite count_by_total.
      rewrite <- (filter_all subjects). unfold subjects, cohort.
      rewrite (count_of_group st _ U), filter_all. reflexivity.
    + split; [exact R |]. split; [exact S |].
      unfold subject_metrics. fold cohort. fold subjects.
      rewrite !R, !S. reflexivity.
Qed.

Lemma subjects_counted_once_witness :
  pk_unique demo_store /\
  List.length (get_baseline_samples demo_store) = 3%nat /\
  subject_metrics demo_store = (1, 1, 1, 1)%nat /\
  sum_nat (map snd (response_counts (distinct_subjects (get_baseline_samples demo_store))))
  = distinct_subject_count (get_baseline_samples demo_store).
Proof.
  assert (U : pk_unique demo_store).
  { apply wf_storeb_sound. vm_compute. reflexivity. }
  split; [exact U |]. split; [vm_compute; reflexivity |].
  split; [vm_compute; reflexivity |].
  exact (proj1 (proj2 (subjects_counted_once demo_store U))).
Defined.

(* ================================================================= *)
(** * Empty response groups *)

Lemma mannwhitneyu_raise pol sf (x y : list f64) (e : exn) :
  mannwhitneyu pol sf x y = Raise e ->
  pol = EmptyRaises /\ e = ValueError empty_sample_message /\ has_nan x y = false
  /\ (x = [] \/ y = []).
Proof.
  unfold mannwhitneyu.
  destruct (has_nan x y); [discriminate |].
  destruct ((List.length x =? 0)%nat || (List.length y =? 0)%nat) eqn:E;
    [| discriminate].
  destruct pol; [| discriminate].
  intros H. inversion H. repeat split.
  apply orb_true_iff in E. destruct E as [E | E]; apply Nat.eqb_eq in E;
    apply length_zero_iff_nil in E; [left | right]; exact E.
Qed.

Lemma mannwhitneyu_empty pol sf (x y : list f64) :
  x = [] \/ y = [] ->
  mannwhitneyu pol sf x y =
    if has_nan x y then Ok (NaN, NaN)
    else match pol with
         | EmptyRaises => Raise (ValueError empty_sample_message)
         | EmptyNaN => Ok (NaN, NaN)
         end.
Proof.
  intros H. unfold mannwhitneyu.
  destruct (has_nan x y); [reflexivity |].
  assert (E : (List.length x =? 0)%nat || (List.length y =? 0)%nat = true).
  { apply orb_true_iff. destruct H as [-> | ->]; [left | right]; reflexivity. }
  rewrite E. reflexivity.
Qed.

Lemma test_population_empty pol sf (df : list Resp.t) (pop : string) :
  responders df pop = [] \/ non_responders df pop = [] ->
  test_population pol sf df pop =
    if has_nan (responders df pop) (non_responders df pop) then Ok (nan_row pop)
    else match pol with
         | EmptyRaises => Raise (ValueError empty_sample_message)
         | EmptyNaN => Ok (nan_row pop)
         end.
Proof.
  intros H. unfold test_population. rewrite (mannwhitneyu_empty pol sf _ _ H).
  destruct (has_nan (responders df pop) (non_responders df pop));
    [reflexivity |].
  destruct pol; reflexivity.
Qed.

Lemma test_population_raise pol sf (df : list Resp.t) (pop : string) (e : exn) :
  test_population pol sf df pop = Raise e ->
  pol = EmptyRaises /\ e = ValueError empty_sample_message.
Proof.
  unfold test_population. intros H.
  destruct (mannwhitneyu pol sf (responders df pop) (non_responders df pop))
    as [[stat p] | e'] eqn:M; simpl in H; [discriminate |].
  inversion H; subst. apply mannwhitneyu_raise in M.
  destruct M as [P [E _]]. split; assumption.
Qed.

Lemma sorted_populations_In (df : list Resp.t) (pop : string) :
  In pop (sorted_populations df) <-> In pop (map Resp.population df).
Proof.
  unfold sorted_populations, unique. split; intros I.
  - apply (Permutation_in _ (sort_by_perm String.leb _)) in I.
    apply nodup_In in I. exact I.
  - apply (Permutation_in _ (Permutation_sym (sort_by_perm String.leb _))).
    apply nodup_In. exact I.
Qed.

Lemma Forall2_In_l {A B : Type} (R : A -> B -> Prop) (l : list A) (l' : list B)
  (a : A) :
  Forall2 R l l' -> In a l -> exists b, In b l' /\ R a b.
Proof.
  induction 1 as [| x y xs ys Rxy _ IH]; intros I; [contradiction |].
  destruct I as [-> | I].
  - exists y. split; [left; reflexivity | exact Rxy].
  - destruct (IH I) as [b [Ib Rb]]. exists b. split; [right |]; assumption.
Qed.

(** C3, as the code has it: [get_significance_tests] does not look at
    the sizes of the two groups; with an empty group the outcome is
    whatever [mannwhitneyu] does with an empty sample.  Either the
    [ValueError] of the library propagates, with the library's fixed
    message, or the population gets a row whose statistic and p-value
    are NaN and whose flag is false. *)
Theorem empty_group_outcome pol sf (df : list Resp.t) (pop : string) :
  In pop (map Resp.population df) ->
  responders df pop = [] \/ non_responders df pop = [] ->
  match get_significance_tests pol sf df with
  | Raise e => pol = EmptyRaises /\ e = ValueError empty_sample_message
  | Ok rows =>
      In (nan_row pop) rows /\
      (pol = EmptyNaN \/
       has_nan (responders df pop) (non_responders df pop) = true)
  end.
Proof.
  intros I H. unfold get_significance_tests.
  destruct (for_each (test_population pol sf df) (sorted_populations df))
    as [rows | e] eqn:F.
  - apply for_each_ok in F. apply sorted_populations_In in I.
    destruct (Forall2_In_l _ _ _ _ F I) as [row [Irow T]].
    rewrite (test_population_empty pol sf df pop H) in T.
    destruct (has_nan (responders df pop) (non_responders df pop)).
    + inversion T; subst. split; [exact Irow | right; reflexivity].
    + destruct pol; [discriminate |].
      inversion T; subst. split; [exact Irow | left; reflexivity].
  - apply for_each_raise in F. destruct F as [pop' [_ T]].
    apply test_population_raise in T. exact T.
Qed.

Lemma empty_group_outcome_witness :
  In "b_cell"%string (map Resp.population lone_group_table) /\
  non_responders lone_group_table "b_cell" = [] /\
  get_significance_tests EmptyRaises (fun _ _ => NaN) lone_group_table
  = Raise (ValueError empty_sample_message) /\
  In (nan_row "b_cell")
     match get_significance_tests EmptyNaN (fun _ _ => NaN) lone_group_table with
     | Ok rows => rows
     | Raise _ => []
     end.
Proof.
  assert (I : In "b_cell"%string (map Resp.population lone_group_table))
    by (left; reflexivity).
  assert (E : non_responders lone_group_table "b_cell" = []) by reflexivity.
  split; [exact I |]. split; [exact E |].
  pose proof (empty_group_outcome EmptyRaises (fun _ _ => NaN)
                lone_group_table "b_cell" I (or_intror E)) as R.
  pose proof (empty_group_outcome EmptyNaN (fun _ _ => NaN)
                lone_group_table "b_cell" I (or_intror E)) as N.
  split.
  - destruct (get_significance_tests EmptyRaises (fun _ _ => NaN) lone_group_table)
      as [rows | e].
    + destruct R as [_ [D | D]]; discriminate.
    + destruct R as [_ ->]. reflexivity.
  - destruct (get_significance_tests EmptyNaN (fun _ _ => NaN) lone_group_table)
      as [rows | e].
    + exact (proj1 N).
    + destruct N as [D _]. discriminate.
Defined.

(** C3, as stated, fails: with two responders and no non-responder for
    [b_cell], a library that raises on an empty sample gives a
    [ValueError] whose message does not contain the population name, and
    a library that warns gives a row of NaN with the flag false. *)
Lemma empty_group_not_named :
  non_responders lone_group_table "b_cell" = [] /\
  (forall sf, get_significance_tests EmptyRaises sf lone_group_table
              = Raise (ValueError empty_sample_message)) /\
  names_population (ValueError empty_sample_message) "b_cell" = false /\
  (forall sf, get_significance_tests EmptyNaN sf lone_group_table
              = Ok [nan_row "b_cell"]).
Proof.
  split; [reflexivity |].
  split; [intros sf; vm_compute; reflexivity |].
  split; [vm_compute; reflexivity |].
  intros sf. vm_compute. reflexivity.
Qed.

(* ================================================================= *)
(** * Samples with a zero total *)

Lemma names_population_reads_message :
  names_population (ValueError "no responders for b_cell") "b_cell" = true.
Proof. reflexivity. Qed.









(* ================================================================= *)
(** * The mean B-cell count *)


Lemma opt_is_Some (o : option string) (lit : string) :
  opt_is o lit = true <-> o = Some lit.
Proof.
  destruct o as [s |]; simpl.
  - rewrite String.eqb_eq. split; [intros -> | intros E; inversion E]; reflexivity.
  - split; discriminate.
Qed.


(* ================================================================= *)
(** * Rows with another response *)

Lemma filter_through {A : Type} (f g h : A -> bool) (l : list A) :
  (forall a, h a = true -> f a = true -> g a = true) ->
  filter f (filter h (filter g l)) = filter f (filter h l).
Proof.
  intros Imp. induction l as [| a rest IH]; simpl; [reflexivity |].
  destruct (g a) eqn:G, (h a) eqn:H; simpl; rewrite ?H; simpl;
    try rewrite IH; try reflexivity.
  destruct (f a) eqn:F; [| reflexivity].
  pose proof (Imp a H F). congruence.
Qed.


Lemma label_is_yes_or_no (label : string) (r : Resp.t) :
  label = "yes"%string \/ label = "no"%string ->
  opt_is (Resp.response r) label = true -> yes_or_no r = true.
Proof.
  intros L H. unfold yes_or_no. destruct L as [-> | ->]; rewrite H;
    [reflexivity | apply orb_true_r].
Qed.

Lemma response_group_yes_or_no (label : string) (df : list Resp.t) (pop : string) :
  label = "yes"%string \/ label = "no"%string ->
  response_group label (filter yes_or_no df) pop = response_group label df pop.
Proof.
  intros L. unfold response_group. f_equal. apply filter_through.
  intros r _ H. apply (label_is_yes_or_no label); assumption.
Qed.



(** The rows of [mixed_table] with a null response and with the response
    "unknown" change nothing. *)
Lemma other_responses_ignored_example :
  responders mixed_table "b_cell" = [Fin 10] /\
  non_responders mixed_table "b_cell" = [Fin 20; Fin 30] /\
  List.length (filter yes_or_no mixed_table) = 3%nat /\
  forall pol sf,
    get_significance_tests pol sf mixed_table
    = get_significance_tests pol sf (filter yes_or_no mixed_table).
Proof.
  split; [reflexivity |]. split; [reflexivity |]. split; [reflexivity |].
  intros pol sf. unfold get_significance_tests.
  change (sorted_populations (filter yes_or_no mixed_table))
    with (sorted_populations mixed_table).
  change (sorted_populations mixed_table) with ["b_cell"%string].
  unfold for_each, test_population, responders, non_responders.
  rewrite !response_group_yes_or_no by (auto). reflexivity.
Qed.

(* ================================================================= *)
(** * The properties on the sample data *)

(** The sample of the specification: counts 50 and 50 of a total of 100
    give 50.00 percent each. *)
Lemma frequency_example :
  map (fun r => (Freq.population r, Freq.total_count r, Freq.percentage r))
      (filter (fun r => String.eqb (Freq.sample r) "s1")
              (get_frequency_table demo_store))
  = [ ("b_cell", 100%Z, Fin 50); ("cd4_t_cell", 100%Z, Fin 0);
      ("cd8_t_cell", 100%Z, Fin 0); ("monocyte", 100%Z, Fin 0);
      ("nk_cell", 100%Z, Fin 50) ]%string.
Proof. vm_compute. reflexivity. Qed.

(** Complete separation of three against three: U = 0 and p = 0.1. *)
Lemma separated_example pol sf :
  get_significance_tests pol sf separated_table
  = Ok [ {| sig_population := "b_cell";
            u_statistic := Fin 0;
            p_value := Fin (1 # 10);
            significant := false |} ].
Proof. vm_compute. reflexivity. Qed.

Lemma demo_store_loaded : load_csv init_db demo_csv = (None, demo_store).
Proof. vm_compute. reflexivity. Qed.

Lemma demo_store_wf : wf_store demo_store.
Proof. apply wf_storeb_sound. vm_compute. reflexivity. Qed.






Lemma load_keeps_cell_counts_unique_witness :
  cell_count_unique init_db /\
  NoDup (map CsvRow.sample demo_csv) /\
  load_csv init_db demo_csv = (None, demo_store) /\
  cell_count_unique demo_store.
Proof.
  assert (U : cell_count_unique init_db) by constructor.
  assert (N : NoDup (map CsvRow.sample demo_csv))
    by (apply distinctb_NoDup; vm_compute; reflexivity).
  assert (L : load_csv init_db demo_csv = (None, demo_store))
    by (vm_compute; reflexivity).
  split; [exact U |]. split; [exact N |]. split; [exact L |].
  apply (load_keeps_cell_counts_unique init_db demo_csv demo_store U);
    [intros cc [] | exact N | exact L].
Defined.

(** C7, as stated, fails: a source with the same line twice is loaded,
    its sample is inserted once, and [cell_counts] gets two rows for
    each population of that sample. *)
Lemma repeated_line_repeats_cell_counts :
  fst (load_csv init_db repeated_csv) = None /\
  List.length (samples (snd (load_csv init_db repeated_csv))) = 1%nat /\
  count_occ key_dec
    (map (fun cc => (CellCount.sample_id cc, CellCount.population cc))
         (cell_counts (snd (load_csv init_db repeated_csv))))
    ("s1", "b_cell")%string = 2%nat /\
  ~ cell_count_unique (snd (load_csv init_db repeated_csv)).
Proof.
  split; [vm_compute; reflexivity |].
  split; [vm_compute; reflexivity |].
  split; [vm_compute; reflexivity |].
  intros U. unfold cell_count_unique in U.
  apply (NoDup_count_occ key_dec) with (x := ("s1", "b_cell")%string) in U.
  vm_compute in U. lia.
Qed.

(** The male responder of [demo_csv] has B-cell counts 50 and 10. *)
Lemma avg_bcell_example :
  get_avg_bcell_male_responders demo_store = Ok (Fin 30).
Proof. vm_compute. reflexivity. Qed.



(* ================================================================= *)
(** * More on loading *)

Lemma distinct_keys_agree (df : list CsvRow.t) :
  NoDup (map Subject.id (new_subjects (pending df))) ->
  NoDup (map Sample.id (new_samples (pending df))) ->
  agree_on_ids df = true.
Proof.
  intros NS NM. destruct (agree_on_ids df) eqn:G; [reflexivity |].
  exfalso. apply agree_on_ids_false in G.
  destruct G as [r1 [r2 [I1 [I2 [[E D] | [E D]]]]]]; apply D.
  - assert (K : mk_subject (select_subject r1) = mk_subject (select_subject r2)).
    { apply (NoDup_map_eq Subject.id (new_subjects (pending df)));
        try (apply pending_subject; assumption); assumption. }
    unfold select_subject in *. simpl in K. inversion K. congruence.
  - assert (K : mk_sample (select_sample r1) = mk_sample (select_sample r2)).
    { apply (NoDup_map_eq Sample.id (new_samples (pending df)));
        try (apply pending_sample; assumption); assumption. }
    unfold select_sample in *. simpl in K. inversion K. congruence.
Qed.

Lemma fresh_ids_true (st : Store) (df : list CsvRow.t) :
  fresh_ids st df = true <->
  forall r, In r df ->
    ~ In (CsvRow.project r) (map Project.id (projects st)) /\
    ~ In (CsvRow.subject r) (map Subject.id (subjects st)) /\
    ~ In (CsvRow.sample r) (map Sample.id (samples st)).
Proof.
  unfold fresh_ids. rewrite forallb_forall. split; intros H r I.
  - specialize (H r I). rewrite !andb_true_iff, !negb_true_iff in H.
    destruct H as [[P S] M]. repeat split; intros J; apply memb_In in J; congruence.
  - destruct (H r I) as [P [S M]]. rewrite !andb_true_iff, !negb_true_iff.
    repeat split.
    + destruct (memb (CsvRow.project r) (map Project.id (projects st))) eqn:E;
        [apply memb_In in E; contradiction | reflexivity].
    + destruct (memb (CsvRow.subject r) (map Subject.id (subjects st))) eqn:E;
        [apply memb_In in E; contradiction | reflexivity].
    + destruct (memb (CsvRow.sample r) (map Sample.id (samples st))) eqn:E;
        [apply memb_In in E; contradiction | reflexivity].
Qed.





Lemma load_csv_accepted_inv (st : Store) (df : list CsvRow.t) (st' : Store) :
  load_csv st df = (None, st') ->
  agree_on_ids df = true /\ fresh_ids st df = true.
Proof.
  intros L. apply load_csv_done in L. destruct L as [P [S [M _]]].
  apply insert_all_ok in P. destruct P as [_ [_ FP]].
  apply insert_all_ok in S. destruct S as [_ [NS FS]].
  apply insert_all_ok in M. destruct M as [_ [NM FM]].
  split; [apply distinct_keys_agree; assumption |].
  apply fresh_ids_true. intros r I. repeat split.
  - apply (FP _ (pending_project df r I)).
  - rewrite <- select_subject_key. apply (FS _ (pending_subject df r I)).
  - rewrite <- select_sample_key. apply (FM _ (pending_sample df r I)).
Qed.



(** X2: every store reached from the empty database by a sequence of
    loads, accepted or rejected, has unique primary keys and only
    references to existing rows. *)
Theorem loads_keep_store_wf (csvs : list (list CsvRow.t)) :
  wf_store (load_all csvs init_db).
Proof.
  unfold load_all.
  assert (G : forall st, wf_store st ->
                wf_store (fold_left (fun st df => snd (load_csv st df)) csvs st)).
  { induction csvs as [| df rest IH]; intros st W; simpl; [exact W |].
    apply IH. destruct (load_csv st df) as [[e |] st'] eqn:L; simpl.
    - apply load_csv_rejected in L. destruct L as [_ ->]. exact W.
    - eapply load_csv_preserves_wf; eassumption. }
  apply G. apply init_db_wf.
Qed.

(** ** From wide lines to long rows *)

Lemma unpivot_length (df : list CsvRow.t) :
  List.length (unpivot df) = (5 * List.length df)%nat.
Proof.
  unfold unpivot, CELL_POPULATIONS. simpl.
  rewrite !length_app, !length_map. simpl. lia.
Qed.

Lemma unpivot_In (df : list CsvRow.t) (r : CsvRow.t) (pop : string) :
  In r df -> In pop CELL_POPULATIONS ->
  In (CsvRow.sample r, pop, CsvRow.column pop r) (unpivot df).
Proof.
  intros Ir Ip. unfold unpivot. apply in_flat_map. exists pop.
  split; [exact Ip |].
  apply (in_map (fun r => (CsvRow.sample r, pop, CsvRow.column pop r))).
  exact Ir.
Qed.

Lemma unpivot_inv (df : list CsvRow.t) (c : string * string * Z) :
  In c (unpivot df) ->
  exists r pop, In r df /\ In pop CELL_POPULATIONS /\
    c = (CsvRow.sample r, pop, CsvRow.column pop r).
Proof.
  unfold unpivot. intros I. apply in_flat_map in I. destruct I as [pop [Ip I]].
  apply in_map_iff in I. destruct I as [r [<- Ir]].
  exists r, pop. repeat split; assumption.
Qed.

(** X3: an accepted load only appends: the rows that the tables held
    stay in place, and [cell_counts] gains five rows per line of the
    source, one for each population column, carrying the sample of the
    line and the value of that column. *)
Theorem load_appends_long_rows (st : Store) (df : list CsvRow.t) (st' : Store) :
  load_csv st df = (None, st') ->
  exists ps sbs sms ccs,
    projects st' = projects st ++ ps /\
    subjects st' = subjects st ++ sbs /\
    samples st' = samples st ++ sms /\
    cell_counts st' = cell_counts st ++ ccs /\
    List.length ccs = (5 * List.length df)%nat /\
    (forall r, In r df ->
       In (CsvRow.sample r, "b_cell"%string, CsvRow.b_cell r) (map cell_cols ccs) /\
       In (CsvRow.sample r, "cd8_t_cell"%string, CsvRow.cd8_t_cell r) (map cell_cols ccs) /\
       In (CsvRow.sample r, "cd4_t_cell"%string, CsvRow.cd4_t_cell r) (map cell_cols ccs) /\
       In (CsvRow.sample r, "nk_cell"%string, CsvRow.nk_cell r) (map cell_cols ccs) /\
       In (CsvRow.sample r, "monocyte"%string, CsvRow.monocyte r) (map cell_cols ccs)) /\
    (forall cc, In cc ccs ->
       exists r, In r df /\
         CellCount.sample_id cc = CsvRow.sample r /\
         In (CellCount.population cc) CELL_POPULATIONS /\
         CellCount.count cc = CsvRow.column (CellCount.population cc) r).
Proof.
  intros L. apply load_csv_done in L. destruct L as [P [S [M C]]].
  apply insert_all_ok in P. destruct P as [EP _].
  apply insert_all_ok in S. destruct S as [ES _].
  apply insert_all_ok in M. destruct M as [EM _].
  destruct (insert_cell_counts_cols (unpivot df) (cell_counts st))
    as [ccs [EC Cols]].
  exists (new_projects (pending df)), (new_subjects (pending df)),
    (new_samples (pending df)), ccs.
  split; [exact EP |]. split; [exact ES |]. split; [exact EM |].
  split; [rewrite C; exact EC |].
  split; [rewrite <- (length_map cell_cols), Cols; apply unpivot_length |].
  split.
  - intros r Ir. rewrite Cols.
    repeat split;
      match goal with
      | |- In (_, ?pop, _) _ =>
          apply (unpivot_In df r pop Ir); unfold CELL_POPULATIONS; simpl; tauto
      end.
  - intros cc Icc. apply (in_map cell_cols) in Icc. rewrite Cols in Icc.
    apply unpivot_inv in Icc. destruct Icc as [r [pop [Ir [Ip E]]]].
    unfold cell_cols in E. inversion E; subst.
    exists r. repeat split; assumption.
Qed.

Lemma load_appends_long_rows_witness :
  load_csv init_db demo_csv = (None, demo_store) /\
  List.length (cell_counts demo_store) = 25%nat.
Proof.
  assert (L : load_csv init_db demo_csv = (None, demo_store))
    by (vm_compute; reflexivity).
  split; [exact L |].
  destruct (load_appends_long_rows init_db demo_csv demo_store L)
    as [ps [sbs [sms [ccs [_ [_ [_ [EC [Len _]]]]]]]]].
  rewrite EC. simpl. exact Len.
Defined.

(** ** From the source to the frequency table *)









(** ** Start-up *)

(** X5: the start-up loads only when the database file does not exist,
    and [init_db] creates the file before the load runs.  So when the
    first load is rejected, the file is left with empty tables, and
    every later start-up, whatever the source then holds, skips the load
    and works on the empty database. *)
Theorem rejected_first_load_is_final (csv csv' : list CsvRow.t) :
  agree_on_ids csv = false ->
  startup None csv = (Some IntegrityError, Some init_db) /\
  startup (snd (startup None csv)) csv' = (None, Some init_db) /\
  get_frequency_table init_db = [] /\
  get_baseline_samples init_db = [].
Proof.
  intros G.
  assert (S : startup None csv = (Some IntegrityError, Some init_db)).
  { unfold startup. destruct (load_csv init_db csv) as [[e |] st] eqn:L.
    - apply load_csv_rejected in L. destruct L as [-> ->]. reflexivity.
    - apply load_csv_accepted_inv in L. destruct L as [G' _]. congruence. }
  split; [exact S |]. rewrite S. simpl.
  repeat split.
Qed.

Lemma rejected_first_load_is_final_witness :
  agree_on_ids conflicting_csv = false /\
  startup (snd (startup None conflicting_csv)) demo_csv = (None, Some init_db).
Proof.
  assert (G : agree_on_ids conflicting_csv = false) by (vm_compute; reflexivity).
  split; [exact G |].
  exact (proj1 (proj2 (rejected_first_load_is_final conflicting_csv demo_csv G))).
Defined.

(* ================================================================= *)
(** * Percentages of a sample *)


Lemma round_to_mono (d : nat) (q r : Q) : q <= r -> round_to d q <= round_to d r.
Proof.
  intros L. rewrite !round_to_value.
  assert (P : 0 < inject_Z (pow10 d)).
  { unfold pow10. change 0 with (inject_Z 0). rewrite <- Zlt_Qlt.
    apply Z.pow_pos_nonneg; lia. }
  assert (M : (round_half_even (q * inject_Z (pow10 d))
               <= round_half_even (r * inject_Z (pow10 d)))%Z).
  { apply round_half_even_mono. apply Qmult_le_compat_r; [exact L |].
    apply Qlt_le_weak. exact P. }
  apply Qmult_le_compat_r; [rewrite <- Zle_Qle; exact M |].
  apply Qlt_le_weak. apply Qinv_lt_0_compat. exact P.
Qed.










(* ================================================================= *)
(** * The responder table and the frequency table *)



Lemma responder_table_perm (st : Store) :
  Permutation (get_responder_frequencies st)
    (map (fun j => select_responder
            (j, total_in (filter responder_cohort (join_counts st))
                  (Joined.sample_id j)))
         (filter responder_cohort (join_counts st))).
Proof.
  unfold get_responder_frequencies, responder_frame.
  rewrite join_totals_rows, map_map. apply sort_by_perm.
Qed.




(* ================================================================= *)
(** * The rows of the significance table *)

Lemma strictly_sorted (l : list string) :
  NoDup l -> StronglySorted (fun a b => String.leb a b = true) l ->
  StronglySorted str_lt l.
Proof.
  intros N S. induction S as [| x rest _ IH F]; [constructor |].
  inversion N as [| ? ? NI N']; subst.
  constructor; [apply IH; exact N' |].
  rewrite Forall_forall in *. intros y Iy.
  specialize (F y Iy). apply string_leb_le, str_le_cases in F.
  destruct F as [L | ->]; [exact L | contradiction].
Qed.

Lemma sorted_populations_strict (df : list Resp.t) :
  NoDup (sorted_populations df) /\ StronglySorted str_lt (sorted_populations df).
Proof.
  assert (N : NoDup (sorted_populations df)).
  { unfold sorted_populations, unique.
    apply (Permutation_NoDup (Permutation_sym (sort_by_perm String.leb _))).
    apply NoDup_nodup. }
  split; [exact N |]. apply strictly_sorted; [exact N |].
  unfold sorted_populations. apply sort_by_sorted.
  - apply String.leb_total.
  - apply string_leb_trans.
Qed.

Lemma rows_populations pol sf (df : list Resp.t) (pops : list string)
  (rows : list SigRow) :
  Forall2 (fun pop r => test_population pol sf df pop = Ok r) pops rows ->
  map sig_population rows = pops.
Proof.
  induction 1 as [| pop r pops rows H _ IH]; simpl; [reflexivity |].
  apply test_population_ok in H. destruct H as [stat [p [_ ->]]]. simpl.
  rewrite IH. reflexivity.
Qed.

(** X8: the significance table has one row per distinct population of
    its input, in strictly ascending order of the population name. *)
Theorem significance_rows_by_population pol sf (df : list Resp.t)
  (rows : list SigRow) :
  get_significance_tests pol sf df = Ok rows ->
  NoDup (map sig_population rows) /\
  StronglySorted str_lt (map sig_population rows) /\
  (forall pop, In pop (map sig_population rows)
               <-> In pop (map Resp.population df)) /\
  List.length rows = List.length (nodup string_dec (map Resp.population df)).
Proof.
  intros H. unfold get_significance_tests in H. apply for_each_ok in H.
  pose proof (rows_populations pol sf df _ _ H) as E.
  destruct (sorted_populations_strict df) as [N S].
  rewrite E. split; [exact N |]. split; [exact S |]. split.
  - intros pop. apply sorted_populations_In.
  - rewrite <- (length_map sig_population), E.
    unfold sorted_populations, unique.
    apply Permutation_length. apply sort_by_perm.
Qed.

Lemma significance_rows_by_population_witness :
  exists rows,
    get_significance_tests EmptyNaN (fun _ _ => NaN)
      (get_responder_frequencies demo_store) = Ok rows /\
    StronglySorted str_lt (map sig_population rows) /\
    List.length rows = 5%nat.
Proof.
  destruct (get_significance_tests EmptyNaN (fun _ _ => NaN)
              (get_responder_frequencies demo_store)) as [rows | e] eqn:E.
  - exists rows. split; [reflexivity |].
    pose proof (significance_rows_by_population _ _ _ _ E) as [_ [S [_ L]]].
    split; [exact S |]. rewrite L. vm_compute. reflexivity.
  - vm_compute in E. discriminate.
Defined.




Lemma clip01_range (x : f64) :
  clip01 x = NaN \/ exists q, clip01 x = Fin q /\ 0 <= q /\ q <= 1.
Proof.
  destruct x as [q | [|] |]; simpl.
  - right. eexists. split; [reflexivity |].
    split.
    + apply Q.min_glb; [apply Q.le_max_r | discriminate].
    + apply Q.le_min_r.
  - right. exists 0. split; [reflexivity |]. split; discriminate.
  - right. exists 1. split; [reflexivity |]. split; discriminate.
  - left. reflexivity.
Qed.

Lemma mannwhitneyu_p_range pol sf (x y : list f64) (stat p : f64) :
  mannwhitneyu pol sf x y = Ok (stat, p) ->
  p = NaN \/ exists q, p = Fin q /\ 0 <= q /\ q <= 1.
Proof.
  unfold mannwhitneyu.
  destruct (has_nan x y); [intros H; inversion H; left; reflexivity |].
  destruct ((List.length x =? 0)%nat || (List.length y =? 0)%nat).
  - destruct pol; [discriminate | intros H; inversion H; left; reflexivity].
  - intros H. inversion H. apply clip01_range.
Qed.

(** X10: the p-value of a row of the significance table is NaN or a
    number between 0 and 1, and a row whose p-value is NaN is not
    flagged as significant. *)
Theorem significance_p_values pol sf (df : list Resp.t) (rows : list SigRow) :
  get_significance_tests pol sf df = Ok rows ->
  Forall (fun r =>
            (p_value r = NaN /\ significant r = false) \/
            (exists q, p_value r = Fin q /\ 0 <= q /\ q <= 1)) rows.
Proof.
  intros H. unfold get_significance_tests in H. apply for_each_ok in H.
  induction H as [| pop r pops rows' Hr _ IH]; constructor; [| exact IH].
  apply test_population_ok in Hr. destruct Hr as [stat [p [M ->]]]. simpl.
  apply mannwhitneyu_p_range in M. destruct M as [-> | [q [-> [Lo Hi]]]].
  - left. split; reflexivity.
  - right. exists (round_to 4 q). split; [reflexivity |]. split.
    + apply Qle_trans with (round_to 4 0); [vm_compute; discriminate |].
      apply round_to_mono. exact Lo.
    + apply Qle_trans with (round_to 4 1); [apply round_to_mono; exact Hi |].
      vm_compute. discriminate.
Qed.

Lemma significance_p_values_witness :
  Forall (fun r =>
            (p_value r = NaN /\ significant r = false) \/
            (exists q, p_value r = Fin q /\ 0 <= q /\ q <= 1)) [narrow_row].
Proof.
  apply (significance_p_values EmptyNaN (fun _ _ => NaN) narrow_table).
  vm_compute. reflexivity.
Defined.

(* ================================================================= *)
(** * Samples per project *)

Lemma at_most_one_match {A : Type} (key : A -> string) (f : A -> bool)
  (k : string) (l : list A) :
  NoDup (map key l) ->
  (forall a, f a = true -> key a = k) ->
  (List.length (filter f l) <= 1)%nat.
Proof.
  intros N K. induction l as [| a rest IH]; simpl; [lia |].
  simpl in N. inversion N as [| ? ? NI N']; subst.
  destruct (f a) eqn:Fa; [| apply IH; exact N'].
  assert (Z : filter f rest = []).
  { destruct (filter f rest) as [| b more] eqn:E; [reflexivity |].
    exfalso. assert (Ib : In b (filter f rest)) by (rewrite E; left; reflexivity).
    apply filter_In in Ib. destruct Ib as [Ib Fb].
    apply NI. rewrite (K a Fa), <- (K b Fb). apply in_map. exact Ib. }
  rewrite Z. simpl. lia.
Qed.

Lemma short_list_distinct {A : Type} (l : list A) :
  (List.length l <= 1)%nat -> NoDup l.
Proof.
  destruct l as [| a [| b rest]]; simpl; intros H.
  - constructor.
  - constructor; [intros [] | constructor].
  - lia.
Qed.

Lemma baseline_samples_distinct (st : Store) :
  pk_unique st -> NoDup (map Baseline.sample_id (get_baseline_samples st)).
Proof.
  intros [_ [Usub Usam]]. unfold get_baseline_samples.
  induction (samples st) as [| s rest IH]; simpl; [constructor |].
  simpl in Usam. inversion Usam as [| ? ? NI N']; subst.
  rewrite map_app. apply NoDup_app.
  - apply short_list_distinct. rewrite !length_map.
    apply (at_most_one_match Subject.id _ (Sample.subject_id s) _ Usub).
    intros sub H. rewrite !andb_true_iff in H.
    destruct H as [[[[E _] _] _] _]. apply String.eqb_eq in E. symmetry. exact E.
  - apply IH. exact N'.
  - intros k I1 I2. rewrite map_map in I1. simpl in I1.
    apply in_map_iff in I1. destruct I1 as [sub [<- _]].
    apply in_map_iff in I2. destruct I2 as [b [Eb Ib]].
    apply in_flat_map in Ib. destruct Ib as [s' [Is' Ib]].
    apply in_map_iff in Ib. destruct Ib as [sub' [<- _]]. simpl in Eb.
    apply NI. rewrite <- Eb. apply in_map. exact Is'.
Qed.

Lemma eqb_indicator_sum (ks : list string) (k : string) :
  NoDup ks -> In k ks ->
  sum_nat (map (fun k' => if String.eqb k k' then 1 else 0)%nat ks) = 1%nat.
Proof.
  induction ks as [| a rest IH]; intros N I; [contradiction |].
  inversion N as [| ? ? NI N']; subst. simpl.
  destruct (String.eqb_spec k a) as [-> | D].
  - assert (Z : sum_nat (map (fun k' => if String.eqb a k' then 1 else 0)%nat rest)
                = 0%nat).
    { clear IH N N' I. induction rest as [| b rest IH]; simpl; [reflexivity |].
      destruct (String.eqb_spec a b) as [-> | _].
      - exfalso. apply NI. left. reflexivity.
      - apply IH. intros I. apply NI. right. exact I. }
    rewrite Z. reflexivity.
  - destruct I as [-> | I]; [contradiction |]. apply IH; assumption.
Qed.

Lemma project_groups_sum (ks : list string) (rows : list Baseline.t) :
  NoDup ks -> (forall b, In b rows -> In (Baseline.project_id b) ks) ->
  sum_nat (map (fun k =>
                  List.length
                    (filter (fun b => String.eqb (Baseline.project_id b) k) rows))
               ks)
  = List.length rows.
Proof.
  intros N. induction rows as [| r rest IH]; intros C.
  - simpl. clear N C. induction ks as [| k ks' IHk]; simpl; [reflexivity | exact IHk].
  - assert (Sp : sum_nat (map (fun k =>
                    List.length
                      (filter (fun b => String.eqb (Baseline.project_id b) k)
                              (r :: rest))) ks)
                = (sum_nat (map (fun k' =>
                      if String.eqb (Baseline.project_id r) k' then 1 else 0)%nat ks)
                   + sum_nat (map (fun k =>
                       List.length
                         (filter (fun b => String.eqb (Baseline.project_id b) k)
                                 rest)) ks))%nat).
    { clear. induction ks as [| k ks' IHk]; [reflexivity |].
      rewrite !map_cons. unfold sum_nat in *. cbn [fold_right]. rewrite IHk.
      cbn [filter]. destruct (String.eqb (Baseline.project_id r) k);
        cbn [List.length]; lia. }
    rewrite Sp, eqb_indicator_sum, IH; simpl; try lia; try assumption.
    + intros b I. apply C. right. exact I.
    + apply C. left. reflexivity.
Qed.

Lemma project_counts_perm (baseline : list Baseline.t) :
  Permutation (project_counts baseline)
    (map (fun k =>
            (k, List.length
                  (filter (fun b => String.eqb (Baseline.project_id b) k)
                          baseline)))
         (nodup string_dec (map Baseline.project_id baseline))).
Proof. unfold project_counts, unique. apply sort_by_perm. Qed.

Lemma sorted_by_first {B : Type} (l : list (string * B)) :
  StronglySorted (fun a b => String.leb (fst a) (fst b) = true) l ->
  StronglySorted (fun a b => String.leb a b = true) (map fst l).
Proof.
  induction 1 as [| x rest _ IH F]; simpl; constructor; [exact IH |].
  rewrite Forall_forall in *. intros k Ik. apply in_map_iff in Ik.
  destruct Ik as [y [<- Iy]]. apply F. exact Iy.
Qed.

(** X11: on a store with unique primary keys every qualifying sample is
    in the baseline cohort once; the sample counts of the third tab list
    each project of the cohort once, in ascending order, with the number
    of its samples in the cohort, which is at least one, and the counts
    add up to the size of the cohort. *)
Theorem project_counts_contract (st : Store) :
  pk_unique st ->
  let cohort := get_baseline_samples st in
  NoDup (map Baseline.sample_id cohort) /\
  StronglySorted str_lt (map fst (project_counts cohort)) /\
  (forall p, In p (map fst (project_counts cohort))
             <-> In p (map Baseline.project_id cohort)) /\
  (forall p n, In (p, n) (project_counts cohort) ->
     (1 <= n)%nat /\
     n = List.length
           (nodup string_dec
              (map Baseline.sample_id
                 (filter (fun b => String.eqb (Baseline.project_id b) p) cohort)))) /\
  sum_nat (map snd (project_counts cohort)) = List.length cohort.
Proof.
  intros U cohort.
  pose proof (baseline_samples_distinct st U) as D. fold cohort in D.
  pose proof (project_counts_perm cohort) as P.
  assert (Keys : map fst
            (map (fun k =>
                    (k, List.length
                          (filter (fun b => String.eqb (Baseline.project_id b) k)
                                  cohort)))
                 (nodup string_dec (map Baseline.project_id cohort)))
            = nodup string_dec (map Baseline.project_id cohort)).
  { rewrite map_map. simpl. apply map_id. }
  assert (PK : Permutation (map fst (project_counts cohort))
                 (nodup string_dec (map Baseline.project_id cohort))).
  { rewrite <- Keys. apply Permutation_map. exact P. }
  split; [exact D |]. split; [| split; [| split]].
  - apply strictly_sorted.
    + apply (Permutation_NoDup (Permutation_sym PK)). apply NoDup_nodup.
    + apply sorted_by_first. unfold project_counts. apply sort_by_sorted.
      * intros a b. apply String.leb_total.
      * intros a b c. apply string_leb_trans.
  - intros p. split; intros I.
    + apply (Permutation_in _ PK) in I. apply nodup_In in I. exact I.
    + apply (Permutation_in _ (Permutation_sym PK)). apply nodup_In. exact I.
  - intros p n I. apply (Permutation_in _ P) in I.
    apply in_map_iff in I. destruct I as [k [E Ik]]. inversion E; subst.
    apply nodup_In in Ik. apply in_map_iff in Ik. destruct Ik as [b [Eb Ib]].
    split.
    + assert (J : In b (filter (fun b0 => String.eqb (Baseline.project_id b0) p)
                               cohort)).
      { apply filter_In. split; [exact Ib | apply String.eqb_eq; exact Eb]. }
      destruct (filter (fun b0 => String.eqb (Baseline.project_id b0) p) cohort);
        [contradiction | simpl; lia].
    + rewrite nodup_fixed_point; [rewrite length_map; reflexivity |].
      assert (G : forall (f : Baseline.t -> bool) l,
                NoDup (map Baseline.sample_id l) ->
                NoDup (map Baseline.sample_id (filter f l))).
      { intros f l. induction l as [| a l IH]; simpl; intros N; [constructor |].
        inversion N as [| ? ? NI N']; subst.
        destruct (f a); simpl; [| apply IH; exact N'].
        constructor; [| apply IH; exact N'].
        intros J. apply NI. apply in_map_iff in J. destruct J as [y [Ey Iy]].
        apply filter_In in Iy. rewrite <- Ey. apply in_map. apply Iy. }
      apply G. exact D.
  - rewrite (sum_nat_perm _ _ (Permutation_map snd P)), map_map. simpl.
    apply project_groups_sum; [apply NoDup_nodup |].
    intros b I. apply nodup_In. apply in_map. exact I.
Qed.

Lemma project_counts_contract_witness :
  pk_unique demo_store /\
  project_counts (get_baseline_samples demo_store) = [("prj1"%string, 3%nat)] /\
  sum_nat (map snd (project_counts (get_baseline_samples demo_store)))
  = List.length (get_baseline_samples demo_store).
Proof.
  assert (U : pk_unique demo_store)
    by (apply wf_storeb_sound; vm_compute; reflexivity).
  split; [exact U |]. split; [vm_compute; reflexivity |].
  exact (proj2 (proj2 (proj2 (proj2 (project_counts_contract demo_store U))))).
Defined.

(* ================================================================= *)
(** * The rounded mean *)





(* ================================================================= *)
(** * The data overview tab *)

Lemma has_null_In (xs : list (option string)) :
  existsb is_null xs = true <-> In None xs.
Proof.
  rewrite existsb_exists. split.
  - intros [x [I H]]. destruct x; [discriminate | exact I].
  - intros I. exists None. split; [exact I | reflexivity].
Qed.

Lemma py_sorted_raise (xs : list (option string)) (e : exn) :
  py_sorted xs = Raise e <->
  e = TypeError /\ In None xs /\ (2 <= List.length xs)%nat.
Proof.
  unfold py_sorted.
  destruct (existsb is_null xs) eqn:N; cbn [andb].
  - destruct (2 <=? List.length xs)%nat eqn:L.
    + apply Nat.leb_le in L. apply has_null_In in N. split.
      * intros H. inversion H. split; [reflexivity | split; assumption].
      * intros [-> _]. reflexivity.
    + apply Nat.leb_gt in L. split; [discriminate |]. intros [_ [_ G]]. lia.
  - split; [discriminate |]. intros [_ [I _]]. apply has_null_In in I. congruence.
Qed.

Lemma two_values (xs : list (option string)) :
  NoDup xs -> In None xs ->
  ((2 <= List.length xs)%nat <-> exists x, In x xs /\ x <> None).
Proof.
  intros N I. split.
  - destruct xs as [| a [| b rest]]; simpl; intros L; try lia.
    inversion N as [| ? ? NI _]; subst.
    destruct a as [s |].
    + exists (Some s). split; [left; reflexivity | discriminate].
    + exists b. split; [right; left; reflexivity |].
      intros E. apply NI. left. exact E.
  - intros [x [Ix D]]. destruct xs as [| a [| b rest]]; simpl.
    + contradiction.
    + destruct I as [E | []]. destruct Ix as [E' | []]. congruence.
    + lia.
Qed.

(** X13: the choices of the four select boxes cannot be built, and the
    first tab raises [TypeError], exactly when the treatment column of
    the frequency table holds both a null and a value: Python cannot
    order [None] against a string.  A column of values only, or of nulls
    only, is accepted. *)
Theorem treatment_choices_fail_on_mixed_nulls (freq_df : list Freq.t) (e : exn) :
  filter_options freq_df = Raise e <->
  e = TypeError /\
  (exists r, In r freq_df /\ Freq.treatment r = None) /\
  (exists r, In r freq_df /\ Freq.treatment r <> None).
Proof.
  unfold filter_options.
  set (col := unique opt_string_dec (map Freq.treatment freq_df)).
  assert (M : forall x, In x col <-> exists r, In r freq_df /\ Freq.treatment r = x).
  { intros x. unfold col, unique. rewrite nodup_In, in_map_iff.
    split; intros [r [A B]]; exists r; split; assumption. }
  assert (N : NoDup col) by apply NoDup_nodup.
  split.
  - intros H. destruct (py_sorted col) as [sorted | e'] eqn:P; simpl in H;
      [discriminate |].
    inversion H; subst. apply py_sorted_raise in P. destruct P as [-> [I L]].
    split; [reflexivity |]. split; [apply M; exact I |].
    apply (two_values col N I) in L. destruct L as [x [Ix D]].
    apply M in Ix. destruct Ix as [r [Ir <-]]. exists r. split; assumption.
  - intros [-> [[r1 [I1 E1]] [r2 [I2 D2]]]].
    assert (I : In None col) by (apply M; exists r1; split; assumption).
    assert (P : py_sorted col = Raise TypeError).
    { apply py_sorted_raise. split; [reflexivity |]. split; [exact I |].
      apply (two_values col N I). exists (Freq.treatment r2).
      split; [apply M; exists r2; split; [exact I2 | reflexivity] | exact D2]. }
    rewrite P. reflexivity.
Qed.

Lemma treatment_choices_fail_on_mixed_nulls_witness :
  filter_options (get_frequency_table demo_store) = Raise TypeError.
Proof.
  apply (proj2 (treatment_choices_fail_on_mixed_nulls
                  (get_frequency_table demo_store) TypeError)).
  split; [reflexivity |]. split.
  - exists (line_frequency
              (csv_row "prj2" "sbj4" "healthy" 30 "F" None None
                 "s5" "WB" 0 1 2 3 4 5) "b_cell").
    split; [vm_compute; do 20 right; left; reflexivity | reflexivity].
  - exists (line_frequency
              (csv_row "prj1" "sbj1" "melanoma" 57 "M" (Some "miraclib"%string)
                 (Some "yes"%string) "s1" "PBMC" 0 50 0 0 50 0) "b_cell").
    split; [vm_compute; left; reflexivity | discriminate].
Defined.

Lemma filter_unless_all_In (sel : string) (col : Freq.t -> string)
  (rows : list Freq.t) (r : Freq.t) :
  In r (filter_unless_all sel col rows) <->
  In r rows /\ (sel = "All"%string \/ col r = sel).
Proof.
  unfold filter_unless_all.
  destruct (String.eqb_spec sel "All") as [E | NE].
  - split; [intros I; split; [exact I | left; exact E] | intros [I _]; exact I].
  - rewrite filter_In, String.eqb_eq. split; intros [I H]; split; try assumption.
    + right. exact H.
    + destruct H as [H | H]; [contradiction | exact H].
Qed.

Lemma filter_treatment_In (sel : option string) (rows : list Freq.t) (r : Freq.t) :
  In r (filter_treatment sel rows) <->
  In r rows /\ (sel = Some "All"%string \/ (sel <> None /\ Freq.treatment r = sel)).
Proof.
  unfold filter_treatment.
  destruct (opt_is sel "All") eqn:A.
  - apply opt_is_Some in A. split;
      [intros I; split; [exact I | left; exact A] | intros [I _]; exact I].
  - rewrite filter_In. split; intros [I H]; split; try assumption.
    + right. destruct sel as [s |]; [| discriminate].
      apply opt_is_Some in H. split; [discriminate | exact H].
    + destruct H as [H | [D H]].
      * rewrite H in A. discriminate.
      * destruct sel as [s |]; [| contradiction]. apply opt_is_Some. exact H.
Qed.

Lemma StronglySorted_filter {A : Type} (R : A -> A -> Prop) (f : A -> bool)
  (l : list A) :
  StronglySorted R l -> StronglySorted R (filter f l).
Proof.
  induction 1 as [| x rest _ IH F]; simpl; [constructor |].
  destruct (f x); [| exact IH]. constructor; [exact IH |].
  rewrite Forall_forall in *. intros y Iy. apply F.
  apply filter_In in Iy. apply Iy.
Qed.

Lemma filter_unless_all_sorted (R : Freq.t -> Freq.t -> Prop) (sel : string)
  (col : Freq.t -> string) (rows : list Freq.t) :
  StronglySorted R rows -> StronglySorted R (filter_unless_all sel col rows).
Proof.
  intros S. unfold filter_unless_all.
  destruct (String.eqb sel "All"); [exact S | apply StronglySorted_filter; exact S].
Qed.

Lemma apply_filters_sorted (R : Freq.t -> Freq.t -> Prop) (sel : Selection)
  (rows : list Freq.t) :
  StronglySorted R rows -> StronglySorted R (apply_filters sel rows).
Proof.
  intros S. unfold apply_filters.
  apply filter_unless_all_sorted. unfold filter_treatment.
  destruct (opt_is (sel_treatment sel) "All");
    [| apply StronglySorted_filter];
    apply filter_unless_all_sorted; apply filter_unless_all_sorted; exact S.
Qed.

Lemma StronglySorted_map {A B : Type} (R : B -> B -> Prop) (g : A -> B)
  (l : list A) :
  StronglySorted (fun a b => R (g a) (g b)) l -> StronglySorted R (map g l).
Proof.
  induction 1 as [| x rest _ IH F]; simpl; constructor; [exact IH |].
  rewrite Forall_forall in *. intros y Iy. apply in_map_iff in Iy.
  destruct Iy as [a [<- Ia]]. apply F. exact Ia.
Qed.

Lemma filter_keeps_all {A : Type} (f : A -> bool) (l : list A) :
  (forall a, In a l -> f a = true) -> filter f l = l.
Proof.
  induction l as [| a rest IH]; intros H; simpl; [reflexivity |].
  rewrite (H a (or_introl eq_refl)), IH; [reflexivity |].
  intros b Ib. apply H. right. exact Ib.
Qed.

Lemma nodup_length_le {A : Type} (dec : forall a b : A, {a = b} + {a <> b})
  (l : list A) : (List.length (nodup dec l) <= List.length l)%nat.
Proof.
  induction l as [| a rest IH]; simpl; [lia |].
  destruct (in_dec dec a rest); simpl; lia.
Qed.

(** X14: the table of the first tab shows rows of the frequency table
    and nothing else: every shown row is the projection of a row of the
    frequency table that passes the four select boxes, the shown rows
    are still sorted by sample, then population, an empty population
    selection shows what selecting every population shows, and the
    "Samples" metric never exceeds "Records". *)
Theorem display_is_part_of_table (str_contains : string -> string -> bool)
  (st : Store) (sel : Selection) (search : string) (pops : list string) :
  let table := get_frequency_table st in
  let filtered := apply_filters sel table in
  let shown := display_df str_contains filtered search pops in
  (forall r, In r filtered <->
     In r table /\
     (sel_project sel = "All"%string \/ Freq.project_id r = sel_project sel) /\
     (sel_condition sel = "All"%string \/ Freq.condition r = sel_condition sel) /\
     (sel_treatment sel = Some "All"%string \/
      (sel_treatment sel <> None /\ Freq.treatment r = sel_treatment sel)) /\
     (sel_sample_type sel = "All"%string
      \/ Freq.sample_type r = sel_sample_type sel)) /\
  (forall d, In d shown -> exists r, In r filtered /\ d = select_display r) /\
  StronglySorted (fun a b => lex_le (display_key a) (display_key b)) shown /\
  display_df str_contains filtered search []
  = display_df str_contains filtered search (all_pops filtered) /\
  (samples_metric filtered <= records_metric filtered)%nat.
Proof.
  intros table filtered shown. split; [| split; [| split; [| split]]].
  - intros r. unfold filtered, apply_filters.
    rewrite filter_unless_all_In, filter_treatment_In, !filter_unless_all_In.
    tauto.
  - intros d I. unfold shown, display_df in I.
    assert (J : In d (map select_display filtered)).
    { destruct pops as [| p ps].
      - destruct (String.eqb search ""); [exact I |].
        apply filter_In in I. apply I.
      - apply filter_In in I. destruct I as [I _].
        destruct (String.eqb search ""); [exact I |].
        apply filter_In in I. apply I. }
    apply in_map_iff in J. destruct J as [r [<- Ir]].
    exists r. split; [exact Ir | reflexivity].
  - assert (S : StronglySorted (fun a b => lex_le (display_key a) (display_key b))
                  (map select_display filtered)).
    { apply StronglySorted_map. unfold filtered.
      apply (apply_filters_sorted
               (fun a b => lex_le (display_key (select_display a))
                                  (display_key (select_display b)))).
      apply (sort_by_key_sorted freq_key). }
    unfold shown, display_df.
    destruct pops as [| p ps]; [| apply StronglySorted_filter];
      (destruct (String.eqb search ""); [exact S | apply StronglySorted_filter; exact S]).
  - unfold display_df.
    destruct (all_pops filtered) as [| p ps] eqn:A; [reflexivity |].
    symmetry. apply filter_keeps_all. intros d I.
    assert (J : In d (map select_display filtered)).
    { destruct (String.eqb search ""); [exact I |].
      apply filter_In in I. apply I. }
    apply in_map_iff in J. destruct J as [r [<- Ir]].
    apply existsb_exists. exists (Freq.population r).
    split; [| apply String.eqb_refl].
    rewrite <- A. unfold all_pops, unique.
    apply (Permutation_in _ (Permutation_sym (sort_by_perm String.leb _))).
    apply nodup_In. apply in_map. exact Ir.
  - unfold samples_metric, records_metric, unique.
    rewrite <- (length_map Freq.sample filtered). apply nodup_length_le.
Qed.

Lemma display_is_part_of_table_witness :
  let shown :=
    display_df (fun _ _ => true)
      (apply_filters prj1_selection (get_frequency_table demo_store))
      "" ["b_cell"%string] in
  map Display.sample shown = ["s1"; "s2"; "s3"]%string /\
  StronglySorted (fun a b => lex_le (display_key a) (display_key b)) shown /\
  forall d, In d shown ->
    exists r, In r (apply_filters prj1_selection (get_frequency_table demo_store))
              /\ d = select_display r.
Proof.
  pose proof (display_is_part_of_table (fun _ _ => true) demo_store
                prj1_selection "" ["b_cell"%string]) as H.
  cbv zeta in H. destruct H as [_ [M [S _]]].
  split; [vm_compute; reflexivity |]. split; [exact S | exact M].
Defined.

(** ** The statistical tab on a loaded database *)

Lemma loaded_cell_populations (csvs : list (list CsvRow.t)) (cc : CellCount.t) :
  In cc (cell_counts (load_all csvs init_db)) ->
  In (CellCount.population cc) CELL_POPULATIONS.
Proof.
  unfold load_all.
  assert (G : forall st,
            (forall c, In c (cell_counts st) ->
                       In (CellCount.population c) CELL_POPULATIONS) ->
            forall c,
              In c (cell_counts
                      (fold_left (fun st df => snd (load_csv st df)) csvs st)) ->
              In (CellCount.population c) CELL_POPULATIONS).
  { induction csvs as [| df rest IH]; intros st H; simpl; [exact H |].
    apply IH. destruct (load_csv st df) as [[e |] st'] eqn:L; simpl.
    - apply load_csv_rejected in L. destruct L as [_ ->]. exact H.
    - apply load_csv_done in L. destruct L as [_ [_ [_ C]]].
      destruct (insert_cell_counts_cols (unpivot df) (cell_counts st))
        as [added [E M]].
      intros c I. rewrite C, E in I. apply in_app_or in I.
      destruct I as [I | I]; [apply H; exact I |].
      apply (in_map cell_cols) in I. rewrite M in I.
      apply unpivot_inv in I. destruct I as [r [pop [_ [Ip Ec]]]].
      unfold cell_cols in Ec. inversion Ec; subst. exact Ip. }
  apply G. simpl. intros c [].
Qed.

Lemma join_counts_population (st : Store) (j : Joined.t) :
  In j (join_counts st) ->
  exists cc, In cc (cell_counts st) /\
             Joined.population j = CellCount.population cc.
Proof.
  unfold join_counts. intros I.
  apply in_flat_map in I. destruct I as [cc [Ic I]].
  apply in_flat_map in I. destruct I as [s [_ I]].
  apply in_map_iff in I. destruct I as [sub [<- _]].
  exists cc. split; [exact Ic | reflexivity].
Qed.

Lemma responder_population (st : Store) (r : Resp.t) :
  In r (get_responder_frequencies st) ->
  exists cc, In cc (cell_counts st) /\
             Resp.population r = CellCount.population cc.
Proof.
  intros I. apply (Permutation_in _ (responder_table_perm st)) in I.
  apply in_map_iff in I. destruct I as [j [<- Ij]].
  apply filter_In in Ij. destruct Ij as [Ij _].
  apply join_counts_population in Ij. exact Ij.
Qed.

(** X15: on a database that was filled by loads only, the statistical tab
    works on the five cell populations: every row of the responder table
    and every row of the significance table computed from it names one
    of them, so the significance table has at most five rows. *)
Theorem loaded_store_tests_known_populations pol sf
  (csvs : list (list CsvRow.t)) (rows : list SigRow) :
  get_significance_tests pol sf
    (get_responder_frequencies (load_all csvs init_db)) = Ok rows ->
  (forall r, In r (get_responder_frequencies (load_all csvs init_db)) ->
             In (Resp.population r) CELL_POPULATIONS) /\
  (forall row, In row rows -> In (sig_population row) CELL_POPULATIONS) /\
  (List.length rows <= 5)%nat.
Proof.
  intros H.
  assert (R : forall r, In r (get_responder_frequencies (load_all csvs init_db)) ->
                        In (Resp.population r) CELL_POPULATIONS).
  { intros r I. apply responder_population in I. destruct I as [cc [Ic ->]].
    eapply loaded_cell_populations. exact Ic. }
  unfold get_significance_tests in H. apply for_each_ok in H.
  pose proof (rows_populations _ _ _ _ _ H) as E.
  assert (P : forall pop, In pop (map sig_population rows) ->
                          In pop CELL_POPULATIONS).
  { intros pop I. rewrite E in I. apply sorted_populations_In in I.
    apply in_map_iff in I. destruct I as [r [<- Ir]]. apply R. exact Ir. }
  split; [exact R |]. split.
  - intros row I. apply P. apply in_map. exact I.
  - rewrite <- (length_map sig_population).
    change 5%nat with (List.length CELL_POPULATIONS).
    apply NoDup_incl_length; [| exact P].
    rewrite E. apply sorted_populations_strict.
Qed.

Lemma loaded_store_tests_known_populations_witness :
  exists rows,
    get_significance_tests EmptyNaN (fun _ _ => NaN)
      (get_responder_frequencies (load_all [demo_csv; demo_csv] init_db))
    = Ok rows /\
    (forall row, In row rows -> In (sig_population row) CELL_POPULATIONS) /\
    (List.length rows <= 5)%nat.
Proof.
  destruct (get_significance_tests EmptyNaN (fun _ _ => NaN)
              (get_responder_frequencies (load_all [demo_csv; demo_csv] init_db)))
    as [rows | e] eqn:E.
  - exists rows. split; [reflexivity |].
    exact (proj2 (loaded_store_tests_known_populations _ _ _ _ E)).
  - vm_compute in E. discriminate.
Defined.

(** ** The choices of the select boxes *)

Lemma choices_In (col : list string) (x : string) :
  In x (choices col) <-> x = "All"%string \/ In x col.
Proof.
  unfold choices, unique. simpl. split.
  - intros [E | I]; [left; symmetry; exact E |].
    right. apply (Permutation_in _ (sort_by_perm String.leb _)) in I.
    apply nodup_In in I. exact I.
  - intros [E | I]; [left; symmetry; exact E |].
    right. apply (Permutation_in _ (Permutation_sym (sort_by_perm String.leb _))).
    apply nodup_In. exact I.
Qed.

Lemma select_project_rows (p : string) (freq_df : list Freq.t) (r : Freq.t) :
  In r (apply_filters (select_project p) freq_df) <->
  In r freq_df /\ (p = "All"%string \/ Freq.project_id r = p).
Proof.
  unfold apply_filters, select_project. cbn [sel_project sel_condition
    sel_treatment sel_sample_type].
  rewrite filter_unless_all_In, filter_treatment_In, filter_unless_all_In,
    filter_unless_all_In.
  split.
  - intros [[[H _] _] _]. exact H.
  - intros H. repeat split; try exact (proj1 H); try exact (proj2 H);
      left; reflexivity.
Qed.

Lemma select_treatment_rows (t : option string) (freq_df : list Freq.t)
  (r : Freq.t) :
  In r (apply_filters (select_treatment t) freq_df) <->
  In r freq_df /\ (t = Some "All"%string \/ (t <> None /\ Freq.treatment r = t)).
Proof.
  unfold apply_filters, select_treatment. cbn [sel_project sel_condition
    sel_treatment sel_sample_type].
  rewrite filter_unless_all_In, filter_treatment_In, filter_unless_all_In,
    filter_unless_all_In.
  split.
  - intros [[[[H _] _] T] _]. split; assumption.
  - intros [H T]. repeat split; try exact H; try exact T; left; reflexivity.
Qed.

(** X16: when the choices of the select boxes can be built, a project or
    treatment is offered exactly when it is the entry All or a value of
    the column; on a table with rows every offered project and every
    offered treatment name selects at least one row.  A null treatment is
    offered only when every row has a null treatment, and choosing it
    shows no row at all. *)
Theorem offered_choices_select_rows (freq_df : list Freq.t) (opts : FilterOptions) :
  filter_options freq_df = Ok opts ->
  (forall p, In p (project_options opts)
             <-> p = "All"%string \/ In p (map Freq.project_id freq_df)) /\
  (forall t, In t (treatment_options opts)
             <-> t = Some "All"%string \/ In t (map Freq.treatment freq_df)) /\
  (freq_df <> [] ->
   (forall p, In p (project_options opts) ->
              apply_filters (select_project p) freq_df <> []) /\
   (forall t, In (Some t) (treatment_options opts) ->
              apply_filters (select_treatment (Some t)) freq_df <> [])) /\
  (In None (treatment_options opts) ->
   (forall r, In r freq_df -> Freq.treatment r = None) /\
   apply_filters (select_treatment None) freq_df = []).
Proof.
  intros H. unfold filter_options in H.
  set (col := unique opt_string_dec (map Freq.treatment freq_df)) in H.
  assert (M : forall x, In x col <-> In x (map Freq.treatment freq_df)).
  { intros x. unfold col, unique. apply nodup_In. }
  assert (N : NoDup col) by apply NoDup_nodup.
  destruct (py_sorted col) as [sorted | e] eqn:P; simpl in H; [| discriminate].
  inversion H; subst opts; clear H.
  cbn [project_options treatment_options].
  assert (PS : forall x, In x sorted <-> In x col).
  { unfold py_sorted in P.
    destruct (existsb is_null col && (2 <=? List.length col)%nat);
      [discriminate |].
    inversion P; subst sorted. intros x. split; intros I.
    - exact (Permutation_in _ (sort_by_perm opt_leb _) I).
    - exact (Permutation_in _ (Permutation_sym (sort_by_perm opt_leb _)) I). }
  assert (T : forall t, In t (Some "All"%string :: sorted)
                        <-> t = Some "All"%string \/ In t (map Freq.treatment freq_df)).
  { intros t. simpl. rewrite PS, M. split; intros [E | I]; auto. }
  split; [intros p; apply choices_In |]. split; [exact T |]. split.
  - intros NE. split.
    + intros p I. apply choices_In in I. destruct I as [-> | I].
      * destruct freq_df as [| r rest]; [contradiction |].
        intros E.
        assert (Ir : In r (apply_filters (select_project "All"%string) (r :: rest))).
        { apply select_project_rows. split; [left; reflexivity |].
          left. reflexivity. }
        rewrite E in Ir. contradiction.
      * apply in_map_iff in I. destruct I as [r [E Ir]]. intros Z.
        assert (I' : In r (apply_filters (select_project p) freq_df)).
        { apply select_project_rows. split; [exact Ir | right; exact E]. }
        rewrite Z in I'. contradiction.
    + intros t I. apply T in I. destruct I as [E | I].
      * destruct freq_df as [| r rest]; [contradiction |].
        intros Z.
        assert (Ir : In r (apply_filters (select_treatment (Some t)) (r :: rest))).
        { apply select_treatment_rows. split; [left; reflexivity |].
          left. exact E. }
        rewrite Z in Ir. contradiction.
      * apply in_map_iff in I. destruct I as [r [E Ir]]. intros Z.
        assert (I' : In r (apply_filters (select_treatment (Some t)) freq_df)).
        { apply select_treatment_rows. split; [exact Ir |].
          right. split; [discriminate | exact E]. }
        rewrite Z in I'. contradiction.
  - intros I. apply T in I. destruct I as [E | I]; [discriminate |].
    split.
    + intros r Ir. destruct (Freq.treatment r) as [s |] eqn:E; [| reflexivity].
      exfalso.
      assert (R : py_sorted col = Raise TypeError).
      { apply py_sorted_raise. split; [reflexivity |].
        split; [apply M; exact I |].
        apply (two_values col N); [apply M; exact I |].
        exists (Some s). split; [| discriminate].
        apply M. rewrite <- E. apply in_map. exact Ir. }
      rewrite R in P. discriminate.
    + destruct (apply_filters (select_treatment None) freq_df) as [| r rest] eqn:E;
        [reflexivity |].
      assert (Ir : In r (apply_filters (select_treatment None) freq_df))
        by (rewrite E; left; reflexivity).
      apply select_treatment_rows in Ir. destruct Ir as [_ [D | [D _]]];
        [discriminate | contradiction].
Qed.

Lemma offered_choices_select_rows_witness :
  exists opts,
    filter_options untreated_table = Ok opts /\
    In None (treatment_options opts) /\
    apply_filters (select_treatment None) untreated_table = [] /\
    apply_filters (select_project "prj1"%string) untreated_table <> [].
Proof.
  destruct (filter_options untreated_table) as [opts | e] eqn:E.
  - exists opts. split; [reflexivity |].
    pose proof (offered_choices_select_rows untreated_table opts E)
      as [P [T [S Z]]].
    assert (I : In None (treatment_options opts)).
    { apply T. right. vm_compute. left. reflexivity. }
    split; [exact I |]. split; [exact (proj2 (Z I)) |].
    assert (NE : untreated_table <> []) by (vm_compute; discriminate).
    apply (proj1 (S NE)). apply P. right. vm_compute. left. reflexivity.
  - vm_compute in E. discriminate.
Defined.
